(** * Remote Airtable MCP server: a shallow embedding

    The development follows [src/tools/airtable-tools.ts] (schemas, the
    [AirtableService] adapter, [registerAirtableTools]) and [src/index.ts]
    (the [AirtableMCP] agent: [init], [cleanup], [alarm]).

    Conventions.
    - JavaScript strings are [string], held by the bytes of their UTF-8
      encoding; a template literal is a chain of [+:+].  The strings of
      the embedding are thus the JavaScript strings without a lone
      surrogate.  In the source the headings are written with an escaped
      backslash ([\\n] inside a template literal), so the text carries the
      two characters backslash and n; a Rocq string literal spells exactly
      that as [\n].
    - A JavaScript [number] is a rational [Q]: every finite double is one,
      and the schemas only compare and test integrality.
    - [undefined] is [None]; a thrown value is an explicit [Thrown].
    - Built-ins of the runtime whose output format no property below
      depends on ([JSON.stringify], [Number.prototype.toString]) and the
      remote provider behind [fetch] are parameters. *)

From Stdlib Require Import ZArith QArith String Ascii List DecimalString Lia.
From stdpp Require Import base strings list gmap.

Set Default Proof Using "Type".
Set Warnings "-register-all".

(* ================================================================= *)
(** ** JavaScript values *)

Definition number : Type := Q.
Bind Scope Q_scope with number.

(** The value of a parsed JSON text.  An object keeps its keys in
    insertion order. *)
Inductive JSON : Type :=
| JNull
| JBool (b : bool)
| JNumber (n : number)
| JString (s : string)
| JArray (items : list JSON)
| JObject (members : list (string * JSON)).

(** [o[k]] on the members of an object; [None] is [undefined]. *)
Fixpoint member (k : string) (members : list (string * JSON)) : option JSON :=
  match members with
  | [] => None
  | (k', v) :: rest => if String.eqb k k' then Some v else member k rest
  end.

(** What a [catch] clause can receive: an [Error] instance with its
    [message], or any other value, kept as its [String(...)] rendering. *)
Inductive Thrown : Type :=
| ErrorObj (message : string)
| NonError (rendering : string).

(** [error instanceof Error ? error.message : String(error)] *)
Definition error_text (e : Thrown) : string :=
  match e with
  | ErrorObj m => m
  | NonError s => s
  end.

(** Built-ins taken as given.  [JSON_stringify v space] is
    [JSON.stringify(v, null, space)]; with [space = 0] it is the plain
    call [JSON.stringify(v)]. *)
Record Runtime : Type := {
  JSON_stringify : JSON -> nat -> string;
  Number_toString : number -> string
}.

(** Decimal rendering of an array index inside a template literal. *)
Definition index_toString (i : nat) : string :=
  NilZero.string_of_uint (Nat.to_uint i).

(** Number predicates used by the schemas. *)
Definition Number_isInteger (n : number) : bool :=
  (Qnum n mod Z.pos (Qden n) =? 0)%Z.

Definition number_gt (n m : number) : bool := negb (Qle_bool n m).
Definition number_le (n m : number) : bool := Qle_bool n m.

(** Truthiness of a number: everything but zero (a JSON number is never
    NaN). *)
Definition number_truthy (n : number) : bool := negb (Qnum n =? 0)%Z.

(** Truthiness of a string: non-empty. *)
Definition string_truthy (s : string) : bool :=
  match s with
  | EmptyString => false
  | String _ _ => true
  end.

(* ================================================================= *)
(** ** URLSearchParams

    [append] pushes a pair; [toString] is the
    application/x-www-form-urlencoded serializer: alphanumerics and
    [* - . _] stay, a space becomes [+], every other byte is
    percent-encoded with upper-case hex digits.  The serializer works on
    the UTF-8 bytes of a string, which are the bytes the embedding holds.
    A JavaScript string with a lone surrogate has no such bytes:
    [URLSearchParams] first replaces the surrogate by U+FFFD, so two such
    strings can serialize alike.  Statements that tell strings apart by
    their serialization therefore ask for [well_formed] strings. *)

Definition URLSearchParams : Type := list (string * string).

Definition params_append (k v : string) (p : URLSearchParams) : URLSearchParams :=
  p ++ [(k, v)].

Definition hex_digit (n : N) : ascii :=
  match n with
  | 0%N => "0" | 1%N => "1" | 2%N => "2" | 3%N => "3"
  | 4%N => "4" | 5%N => "5" | 6%N => "6" | 7%N => "7"
  | 8%N => "8" | 9%N => "9" | 10%N => "A" | 11%N => "B"
  | 12%N => "C" | 13%N => "D" | 14%N => "E" | _ => "F"
  end%char.

Definition form_keeps (c : ascii) : bool :=
  let n := N_of_ascii c in
  ((48 <=? n) && (n <=? 57) || (65 <=? n) && (n <=? 90) ||
   (97 <=? n) && (n <=? 122) ||
   (n =? 42) || (n =? 45) || (n =? 46) || (n =? 95))%N.

Definition form_encode_byte (c : ascii) : string :=
  if form_keeps c then String c EmptyString
  else if (N_of_ascii c =? 32)%N then "+"
  else String "%"%char
         (String (hex_digit (N_of_ascii c / 16))
            (String (hex_digit (N_of_ascii c mod 16)) EmptyString)).

Fixpoint form_encode (s : string) : string :=
  match s with
  | EmptyString => EmptyString
  | String c rest => form_encode_byte c +:+ form_encode rest
  end.

Definition params_toString (p : URLSearchParams) : string :=
  String.concat "&" (map (fun kv => form_encode kv.1 +:+ "=" +:+ form_encode kv.2) p).

(* ================================================================= *)
(** ** The zod combinators used by the schemas

    A zod type reads an input that may be [undefined] and reports every
    issue it finds together with the parsed value; the value is missing
    when the input has the wrong type.  [message] is the text the source
    passes to a check; [None] stands for zod's built-in wording. *)

Inductive PathSeg : Type :=
| PKey (k : string)
| PIndex (i : nat).

Inductive ZodIssueCode : Type :=
| invalid_type
| too_small
| too_big
| invalid_enum_value.

Record ZodIssue : Type := {
  code : ZodIssueCode;
  path : list PathSeg;
  message : option string
}.

Record ParseReturn (A : Type) : Type := {
  issues : list ZodIssue;
  value : option A
}.
Arguments issues {A} _.
Arguments value {A} _.

Definition ZodType (A : Type) : Type := list PathSeg -> option JSON -> ParseReturn A.

Definition OK {A} (a : A) : ParseReturn A := {| issues := []; value := Some a |}.

Definition INVALID {A} (c : ZodIssueCode) (p : list PathSeg) : ParseReturn A :=
  {| issues := [{| code := c; path := p; message := None |}]; value := None |}.

(** Issues add up; the value exists when both sides have one. *)
Definition ap {A B} (f : ParseReturn (A -> B)) (x : ParseReturn A) : ParseReturn B :=
  {| issues := issues f ++ issues x;
     value := match value f, value x with
              | Some g, Some a => Some (g a)
              | _, _ => None
              end |}.

Infix "<@>" := ap (at level 61, left associativity).

(** [z.string()] *)
Definition z_string : ZodType string := fun p input =>
  match input with
  | Some (JString s) => OK s
  | _ => INVALID invalid_type p
  end.

(** [z.number()] *)
Definition z_number : ZodType number := fun p input =>
  match input with
  | Some (JNumber n) => OK n
  | _ => INVALID invalid_type p
  end.

(** A check chained on a type: it runs on a value of the right type and
    adds its issue without stopping the checks after it. *)
Definition check {A} (holds : A -> bool) (c : ZodIssueCode) (msg : option string)
    (t : ZodType A) : ZodType A := fun p input =>
  let r := t p input in
  match value r with
  | Some a =>
      if holds a then r
      else {| issues := issues r ++ [{| code := c; path := p; message := msg |}];
              value := Some a |}
  | None => r
  end.

(** [.min(n, msg)] on a string.  The schemas only use [n = 1], where the
    count of UTF-16 units and the count of bytes agree on emptiness. *)
Definition string_min (n : nat) (msg : string) : ZodType string -> ZodType string :=
  check (fun s => n <=? String.length s)%nat too_small (Some msg).

(** [.int()], [.positive()], [.max(n)] on a number. *)
Definition number_int : ZodType number -> ZodType number :=
  check Number_isInteger invalid_type None.

Definition number_positive : ZodType number -> ZodType number :=
  check (fun n => number_gt n 0%Q) too_small None.

Definition number_max (m : number) : ZodType number -> ZodType number :=
  check (fun n => number_le n m) too_big None.

(** [.optional()] *)
Definition optional {A} (t : ZodType A) : ZodType (option A) := fun p input =>
  match input with
  | None => OK None
  | Some _ => OK Some <@> t p input
  end.

(** [z.enum([...])], each literal paired with the value it denotes. *)
Fixpoint enum_find {A} (s : string) (values : list (string * A)) : option A :=
  match values with
  | [] => None
  | (k, a) :: rest => if String.eqb s k then Some a else enum_find s rest
  end.

Definition z_enum {A} (values : list (string * A)) : ZodType A := fun p input =>
  match input with
  | Some (JString s) =>
      match enum_find s values with
      | Some a => OK a
      | None => INVALID invalid_enum_value p
      end
  | _ => INVALID invalid_type p
  end.

(** [z.array(item)]: every element is parsed at its index. *)
Fixpoint parse_items {A} (item : ZodType A) (p : list PathSeg) (i : nat)
    (xs : list JSON) : ParseReturn (list A) :=
  match xs with
  | [] => OK []
  | x :: rest => OK cons <@> item (p ++ [PIndex i]) (Some x) <@> parse_items item p (S i) rest
  end.

Definition z_array {A} (item : ZodType A) : ZodType (list A) := fun p input =>
  match input with
  | Some (JArray xs) => parse_items item p 0 xs
  | _ => INVALID invalid_type p
  end.

(** [.min(n, msg)] and [.max(n, msg)] on an array look at the length of
    the input array, whatever its elements are. *)
Definition array_check {A} (holds : nat -> bool) (c : ZodIssueCode) (msg : string)
    (t : ZodType (list A)) : ZodType (list A) := fun p input =>
  let r := t p input in
  match input with
  | Some (JArray xs) =>
      if holds (length xs) then r
      else {| issues := {| code := c; path := p; message := Some msg |} :: issues r;
              value := value r |}
  | _ => r
  end.

Definition array_min {A} (n : nat) (msg : string) : ZodType (list A) -> ZodType (list A) :=
  array_check (fun len => n <=? len)%nat too_small msg.

Definition array_max {A} (n : nat) (msg : string) : ZodType (list A) -> ZodType (list A) :=
  array_check (fun len => len <=? n)%nat too_big msg.

(** [z.record(z.any())]: any object, its members untouched. *)
Definition z_record_any : ZodType (list (string * JSON)) := fun p input =>
  match input with
  | Some (JObject members) => OK members
  | _ => INVALID invalid_type p
  end.

(** [z.object({...})]: the input must be an object; each declared key is
    parsed at its own path, undeclared keys are dropped. *)
Definition Shape (A : Type) : Type := list PathSeg -> list (string * JSON) -> ParseReturn A.

Definition prop {A} (k : string) (t : ZodType A) : Shape A := fun p members =>
  t (p ++ [PKey k]) (member k members).

Definition z_object {A} (shape : Shape A) : ZodType A := fun p input =>
  match input with
  | Some (JObject members) => shape p members
  | _ => INVALID invalid_type p
  end.

(** [schema.safeParse(data)] *)
Definition safeParse {A} (t : ZodType A) (data : option JSON) : list ZodIssue + A :=
  let r := t [] data in
  match issues r, value r with
  | [], Some a => inr a
  | found, _ => inl found
  end.

(** Object shapes are written key by key, in the order of the source. *)
Definition shape_of {A} (a : A) : Shape A := fun _ _ => OK a.

Definition shape_ap {A B} (f : Shape (A -> B)) (x : Shape A) : Shape B :=
  fun p members => f p members <@> x p members.

Infix "<&>" := shape_ap (at level 61, left associativity).

(* ================================================================= *)
(** ** Validated arguments, one record per schema *)

Inductive SortDirection : Type := asc | desc.

Definition direction_text (d : SortDirection) : string :=
  match d with
  | asc => "asc"
  | desc => "desc"
  end.

Module SortItem.
Record t : Type := { field : string; direction : option SortDirection }.
End SortItem.

Module ListTables.
Record Args : Type := { baseId : string }.
End ListTables.

Module DescribeTable.
Record Args : Type := { baseId : string; tableId : string }.
End DescribeTable.

Module ListRecords.
Record Args : Type := {
  baseId : string;
  tableId : string;
  view : option string;
  maxRecords : option number;
  sort : option (list SortItem.t);
  filterByFormula : option string
}.
End ListRecords.

Module GetRecord.
Record Args : Type := { baseId : string; tableId : string; recordId : string }.
End GetRecord.

Module CreateRecord.
Record Args : Type := {
  baseId : string;
  tableId : string;
  fields : list (string * JSON)
}.
End CreateRecord.

Module RecordUpdate.
Record t : Type := { id : string; fields : list (string * JSON) }.
End RecordUpdate.

Module UpdateRecords.
Record Args : Type := {
  baseId : string;
  tableId : string;
  records : list RecordUpdate.t
}.
End UpdateRecords.

Module DeleteRecords.
Record Args : Type := {
  baseId : string;
  tableId : string;
  recordIds : list string
}.
End DeleteRecords.

Module SearchRecords.
Record Args : Type := {
  baseId : string;
  tableId : string;
  filterByFormula : string;
  maxRecords : option number
}.
End SearchRecords.

(* ================================================================= *)
(** ** The schemas *)

Definition ListBasesSchema : ZodType unit :=
  z_object (shape_of tt).

Definition ListTablesSchema : ZodType ListTables.Args :=
  z_object (shape_of ListTables.Build_Args
    <&> prop "baseId" (string_min 1 "Base ID is required" z_string)).

Definition DescribeTableSchema : ZodType DescribeTable.Args :=
  z_object (shape_of DescribeTable.Build_Args
    <&> prop "baseId" (string_min 1 "Base ID is required" z_string)
    <&> prop "tableId" (string_min 1 "Table ID is required" z_string)).

Definition SortItemSchema : ZodType SortItem.t :=
  z_object (shape_of SortItem.Build_t
    <&> prop "field" z_string
    <&> prop "direction" (optional (z_enum [("asc", asc); ("desc", desc)]))).

Definition ListRecordsSchema : ZodType ListRecords.Args :=
  z_object (shape_of ListRecords.Build_Args
    <&> prop "baseId" (string_min 1 "Base ID is required" z_string)
    <&> prop "tableId" (string_min 1 "Table ID is required" z_string)
    <&> prop "view" (optional z_string)
    <&> prop "maxRecords"
          (optional (number_max 100%Q (number_positive (number_int z_number))))
    <&> prop "sort" (optional (z_array SortItemSchema))
    <&> prop "filterByFormula" (optional z_string)).

Definition GetRecordSchema : ZodType GetRecord.Args :=
  z_object (shape_of GetRecord.Build_Args
    <&> prop "baseId" (string_min 1 "Base ID is required" z_string)
    <&> prop "tableId" (string_min 1 "Table ID is required" z_string)
    <&> prop "recordId" (string_min 1 "Record ID is required" z_string)).

Definition CreateRecordSchema : ZodType CreateRecord.Args :=
  z_object (shape_of CreateRecord.Build_Args
    <&> prop "baseId" (string_min 1 "Base ID is required" z_string)
    <&> prop "tableId" (string_min 1 "Table ID is required" z_string)
    <&> prop "fields" z_record_any).

Definition RecordUpdateSchema : ZodType RecordUpdate.t :=
  z_object (shape_of RecordUpdate.Build_t
    <&> prop "id" z_string
    <&> prop "fields" z_record_any).

Definition UpdateRecordsSchema : ZodType UpdateRecords.Args :=
  z_object (shape_of UpdateRecords.Build_Args
    <&> prop "baseId" (string_min 1 "Base ID is required" z_string)
    <&> prop "tableId" (string_min 1 "Table ID is required" z_string)
    <&> prop "records"
          (array_max 10 "Maximum 10 records allowed"
             (array_min 1 "At least one record is required"
                (z_array RecordUpdateSchema)))).

Definition DeleteRecordsSchema : ZodType DeleteRecords.Args :=
  z_object (shape_of DeleteRecords.Build_Args
    <&> prop "baseId" (string_min 1 "Base ID is required" z_string)
    <&> prop "tableId" (string_min 1 "Table ID is required" z_string)
    <&> prop "recordIds"
          (array_max 10 "Maximum 10 record IDs allowed"
             (array_min 1 "At least one record ID is required"
                (z_array z_string)))).

Definition SearchRecordsSchema : ZodType SearchRecords.Args :=
  z_object (shape_of SearchRecords.Build_Args
    <&> prop "baseId" (string_min 1 "Base ID is required" z_string)
    <&> prop "tableId" (string_min 1 "Table ID is required" z_string)
    <&> prop "filterByFormula" (string_min 1 "Formula is required for search" z_string)
    <&> prop "maxRecords"
          (optional (number_max 100%Q (number_positive (number_int z_number))))).

(* ================================================================= *)
(** ** Effects: state, exceptions, [try]/[catch] *)

Definition Eff (S A : Type) : Type := S -> (Thrown + A) * S.

Definition ret {S A} (a : A) : Eff S A := fun s => (inr a, s).

Definition throw {S A} (e : Thrown) : Eff S A := fun s => (inl e, s).

Definition bind {S A B} (m : Eff S A) (k : A -> Eff S B) : Eff S B := fun s =>
  match m s with
  | (inr a, s') => k a s'
  | (inl e, s') => (inl e, s')
  end.

(** [try { body } catch (error) { handler }] *)
Definition try_catch {S A} (body : Eff S A) (handler : Thrown -> Eff S A) : Eff S A :=
  fun s =>
    match body s with
    | (inr a, s') => (inr a, s')
    | (inl e, s') => handler e s'
    end.

(** An operation of the runtime that either throws or yields a value and
    touches no state of ours. *)
Definition lift {S A} (r : Thrown + A) : Eff S A := fun s => (r, s).

Notation "x <- m ;; k" := (bind m (fun x => k))
  (at level 100, m at next level, right associativity).

(* ================================================================= *)
(** ** The provider behind [fetch] *)

Module RequestInit.
Record t : Type := {
  method : option string;
  headers : list (string * string);
  body : option string
}.
End RequestInit.

(** [options: RequestInit = {}] *)
Definition no_options : RequestInit.t :=
  {| RequestInit.method := None; RequestInit.headers := []; RequestInit.body := None |}.

Module Request.
Record t : Type := { url : string; init : RequestInit.t }.
End Request.

(** A response as [makeRequest] reads it: the flag, the status line, and
    what awaiting [text()] or [json()] gives. *)
Module Response.
Record t : Type := {
  ok : bool;
  status : number;
  statusText : string;
  text : Thrown + string;
  json : Thrown + JSON
}.
End Response.

(** The requests issued so far, oldest first. *)
Definition Net (A : Type) : Type := Eff (list Request.t) A.

(** Object spread of one header object into another: a key that is
    already there keeps its place and takes the new value. *)
Fixpoint set_header (k v : string) (hs : list (string * string)) : list (string * string) :=
  match hs with
  | [] => [(k, v)]
  | (k', v') :: rest =>
      if String.eqb k k' then (k, v) :: rest else (k', v') :: set_header k v rest
  end.

Definition spread_headers (base extra : list (string * string)) : list (string * string) :=
  fold_left (fun acc kv => set_header kv.1 kv.2 acc) extra base.

(* ================================================================= *)
(** ** Property access on the provider's JSON in [describeTable]

    [baseSchema.tables.find(t => t.id === tableId)] runs on whatever the
    provider sent.  Reading a property of [null] or [undefined], or
    calling a missing [find], throws a [TypeError]; the wording is V8's and
    nothing below depends on it. *)

Definition TypeError (m : string) : Thrown := ErrorObj m.

Definition tables_of (baseSchema : JSON) : Thrown + list JSON :=
  match baseSchema with
  | JNull => inl (TypeError "Cannot read properties of null (reading 'tables')")
  | JObject members =>
      match member "tables" members with
      | Some (JArray ts) => inr ts
      | Some JNull => inl (TypeError "Cannot read properties of null (reading 'find')")
      | Some _ => inl (TypeError "baseSchema.tables.find is not a function")
      | None => inl (TypeError "Cannot read properties of undefined (reading 'find')")
      end
  | _ => inl (TypeError "Cannot read properties of undefined (reading 'find')")
  end.

(** [t.id === tableId]: strict equality with a string. *)
Definition id_is (tableId : string) (t : JSON) : Thrown + bool :=
  match t with
  | JNull => inl (TypeError "Cannot read properties of null (reading 'id')")
  | JObject members =>
      match member "id" members with
      | Some (JString s) => inr (String.eqb s tableId)
      | _ => inr false
      end
  | _ => inr false
  end.

Fixpoint find_table (tableId : string) (ts : list JSON) : Thrown + option JSON :=
  match ts with
  | [] => inr None
  | t :: rest =>
      match id_is tableId t with
      | inl e => inl e
      | inr true => inr (Some t)
      | inr false => find_table tableId rest
      end
  end.

(* ================================================================= *)
(** ** Tool results and the server's registry *)

Module ContentItem.
Record t : Type := { type : string; text : string; isError : option bool }.
End ContentItem.

(** The object a callback returns.  The result type of the SDK has two
    keys: [content], and beside it an optional [isError], by which the
    protocol tells a failed call from a successful one.  A key that an
    object literal of the source does not write is [None]. *)
Module ToolResult.
Record t : Type := { content : list ContentItem.t; isError : option bool }.
End ToolResult.

(** [{ content: [{ type: "text", text }] }] *)
Definition text_result (text : string) : ToolResult.t :=
  {| ToolResult.content :=
       [{| ContentItem.type := "text"; ContentItem.text := text;
           ContentItem.isError := None |}];
     ToolResult.isError := None |}.

(** [{ content: [{ type: "text", text, isError: true }] }]: the flag is
    written inside the content item, and the result has no [isError] of
    its own. *)
Definition error_result (text : string) : ToolResult.t :=
  {| ToolResult.content :=
       [{| ContentItem.type := "text"; ContentItem.text := text;
           ContentItem.isError := Some true |}];
     ToolResult.isError := None |}.

Record RegisteredTool : Type := {
  description : string;
  Args : Type;
  inputSchema : ZodType Args;
  callback : Args -> Net ToolResult.t
}.

Record McpServer : Type := { registeredTools : list (string * RegisteredTool) }.

(** [new McpServer({...})] *)
Definition new_McpServer : McpServer := {| registeredTools := [] |}.

Fixpoint lookup_tool (name : string) (tools : list (string * RegisteredTool))
    : option RegisteredTool :=
  match tools with
  | [] => None
  | (n, t) :: rest => if String.eqb name n then Some t else lookup_tool name rest
  end.

Definition has_tool (name : string) (server : McpServer) : bool :=
  match lookup_tool name (registeredTools server) with
  | Some _ => true
  | None => false
  end.

Definition tool_names (server : McpServer) : list string :=
  map fst (registeredTools server).

Inductive ConsoleLine : Type :=
| console_log_line (text : string)
| console_error_line (text : string) (error : string).

(** What the agent mutates: its server and the console. *)
Record AgentState : Type := {
  server : McpServer;
  console : list ConsoleLine
}.

Definition console_log (text : string) : Eff AgentState unit := fun s =>
  (inr tt, {| server := server s; console := console s ++ [console_log_line text] |}).

Definition console_error (text : string) (e : Thrown) : Eff AgentState unit := fun s =>
  (inr tt, {| server := server s;
              console := console s ++ [console_error_line text (error_text e)] |}).

(** Modelled from the spec: [server.tool(name, description, schema, cb)]
    belongs to the MCP SDK, which is not part of the sources.  The
    registry is ordered and keyed by name, and a descriptor is registered
    once (section 3): the tool is appended under its name, and a name that
    is taken is refused.  The descriptor keeps the schema of the call, as
    the specification has it.  The source passes the [z.object] itself
    where the SDK takes the raw shape of the arguments; an SDK that reads
    any other object as annotations keeps no input schema for such a
    call.  The names in the registry do not depend on that. *)
Definition tool {A} (name description : string) (schema : ZodType A)
    (cb : A -> Net ToolResult.t) : Eff AgentState unit := fun s =>
  if has_tool name (server s) then
    (inl (ErrorObj ("Tool " +:+ name +:+ " is already registered")), s)
  else
    (inr tt,
     {| server :=
          {| registeredTools :=
               registeredTools (server s) ++
               [(name, {| description := description; Args := A;
                          inputSchema := schema; callback := cb |})] |};
        console := console s |}).

Record Env : Type := { AIRTABLE_API_KEY : string }.

Record Props : Type := { login : string; name : string }.

(* ================================================================= *)
(** ** AirtableService *)

Record AirtableService : Type := { apiKey : string; baseUrl : string }.

Definition new_AirtableService (apiKey : string) : AirtableService :=
  {| apiKey := apiKey; baseUrl := "https://api.airtable.com/v0" |}.

Module ListOptions.
Record t : Type := {
  view : option string;
  maxRecords : option number;
  sort : option (list SortItem.t);
  filterByFormula : option string
}.
End ListOptions.

(** [if (x) params.append(k, render(x))] for an optional [x]. *)
Definition append_if {A} (truthy : A -> bool) (x : option A) (k : string)
    (render : A -> string) (params : URLSearchParams) : URLSearchParams :=
  match x with
  | Some a => if truthy a then params_append k (render a) params else params
  | None => params
  end.

(** The body of [options.sort.forEach((sortItem, index) => ...)]. *)
Fixpoint append_sort (index : nat) (items : list SortItem.t) (params : URLSearchParams)
    : URLSearchParams :=
  match items with
  | [] => params
  | sortItem :: rest =>
      let params :=
        params_append ("sort[" +:+ index_toString index +:+ "][field]")
          (SortItem.field sortItem) params in
      let params :=
        match SortItem.direction sortItem with
        | Some d =>
            params_append ("sort[" +:+ index_toString index +:+ "][direction]")
              (direction_text d) params
        | None => params
        end in
      append_sort (S index) rest params
  end.

(** [{ records }] and [{ fields }] as the values handed to
    [JSON.stringify]. *)
Definition update_json (r : RecordUpdate.t) : JSON :=
  JObject [("id", JString (RecordUpdate.id r)); ("fields", JObject (RecordUpdate.fields r))].

Section Gateway.

Context (rt : Runtime) (fetch : Request.t -> Thrown + Response.t).

(** The set of logins with write access.  The source ships it empty and
    tells the deployer to list logins in it. *)
Variable ALLOWED_WRITE_USERNAMES : gset string.

(** [await fetch(url, init)]: the request goes out, then the provider
    answers or the call rejects.  A command issues a single request, so
    the provider is taken as a function of the request. *)
Definition do_fetch (req : Request.t) : Net Response.t := fun sent =>
  (fetch req, sent ++ [req]).

Definition makeRequest (this : AirtableService) (endpoint : string)
    (options : RequestInit.t) : Net JSON :=
  let url := baseUrl this +:+ endpoint in
  response <- do_fetch
    {| Request.url := url;
       Request.init :=
         {| RequestInit.method := RequestInit.method options;
            RequestInit.headers :=
              spread_headers
                [("Authorization", "Bearer " +:+ apiKey this);
                 ("Content-Type", "application/json")]
                (RequestInit.headers options);
            RequestInit.body := RequestInit.body options |} |} ;;
  if negb (Response.ok response) then
    error <- lift (Response.text response) ;;
    throw (ErrorObj ("Airtable API error: "
                     +:+ Number_toString rt (Response.status response) +:+ " "
                     +:+ Response.statusText response +:+ " - " +:+ error))
  else lift (Response.json response).

Definition listBases (this : AirtableService) : Net JSON :=
  makeRequest this "/meta/bases" no_options.

Definition getBaseSchema (this : AirtableService) (baseId : string) : Net JSON :=
  makeRequest this ("/meta/bases/" +:+ baseId +:+ "/tables") no_options.

Definition listRecords_params (options : ListOptions.t) : URLSearchParams :=
  let params : URLSearchParams := [] in
  let params := append_if string_truthy (ListOptions.view options) "view" id params in
  let params :=
    append_if number_truthy (ListOptions.maxRecords options) "maxRecords"
      (Number_toString rt) params in
  let params :=
    append_if string_truthy (ListOptions.filterByFormula options) "filterByFormula"
      id params in
  match ListOptions.sort options with
  | Some items => append_sort 0 items params
  | None => params
  end.

Definition listRecords (this : AirtableService) (baseId tableId : string)
    (options : ListOptions.t) : Net JSON :=
  let queryString := params_toString (listRecords_params options) in
  let endpoint :=
    "/" +:+ baseId +:+ "/" +:+ tableId
    +:+ (if string_truthy queryString then "?" +:+ queryString else "") in
  makeRequest this endpoint no_options.

Definition getRecord (this : AirtableService) (baseId tableId recordId : string)
    : Net JSON :=
  makeRequest this ("/" +:+ baseId +:+ "/" +:+ tableId +:+ "/" +:+ recordId) no_options.

Definition createRecord (this : AirtableService) (baseId tableId : string)
    (fields : list (string * JSON)) : Net JSON :=
  makeRequest this ("/" +:+ baseId +:+ "/" +:+ tableId)
    {| RequestInit.method := Some "POST";
       RequestInit.headers := [];
       RequestInit.body :=
         Some (JSON_stringify rt (JObject [("fields", JObject fields)]) 0) |}.

Definition updateRecords (this : AirtableService) (baseId tableId : string)
    (records : list RecordUpdate.t) : Net JSON :=
  makeRequest this ("/" +:+ baseId +:+ "/" +:+ tableId)
    {| RequestInit.method := Some "PATCH";
       RequestInit.headers := [];
       RequestInit.body :=
         Some (JSON_stringify rt
                 (JObject [("records", JArray (map update_json records))]) 0) |}.

Definition deleteRecords (this : AirtableService) (baseId tableId : string)
    (recordIds : list string) : Net JSON :=
  let params :=
    fold_left (fun params id => params_append "records[]" id params) recordIds [] in
  makeRequest this ("/" +:+ baseId +:+ "/" +:+ tableId +:+ "?" +:+ params_toString params)
    {| RequestInit.method := Some "DELETE";
       RequestInit.headers := [];
       RequestInit.body := None |}.

(* --------------------------------------------------------------- *)
(** *** The tool callbacks of [registerAirtableTools] *)

Definition json_block (heading : string) (result : JSON) : string :=
  heading +:+ "\n\n```json\n" +:+ JSON_stringify rt result 2 +:+ "\n```".

Definition listBases_handler (airtableService : AirtableService) (_ : unit)
    : Net ToolResult.t :=
  try_catch
    (result <- listBases airtableService ;;
     ret (text_result (json_block "**Airtable Bases**" result)))
    (fun error =>
       ret (error_result ("**Error**\n\nFailed to list bases: " +:+ error_text error))).

Definition listTables_handler (airtableService : AirtableService)
    (args : ListTables.Args) : Net ToolResult.t :=
  let baseId := ListTables.baseId args in
  try_catch
    (result <- getBaseSchema airtableService baseId ;;
     ret (text_result (json_block ("**Tables in Base " +:+ baseId +:+ "**") result)))
    (fun error =>
       ret (error_result ("**Error**\n\nFailed to list tables: " +:+ error_text error))).

Definition describeTable_handler (airtableService : AirtableService)
    (args : DescribeTable.Args) : Net ToolResult.t :=
  let baseId := DescribeTable.baseId args in
  let tableId := DescribeTable.tableId args in
  try_catch
    (baseSchema <- getBaseSchema airtableService baseId ;;
     tables <- lift (tables_of baseSchema) ;;
     table <- lift (find_table tableId tables) ;;
     match table with
     | None =>
         ret (error_result ("**Error**\n\nTable " +:+ tableId
                            +:+ " not found in base " +:+ baseId))
     | Some table =>
         ret (text_result (json_block "**Table Details**" table))
     end)
    (fun error =>
       ret (error_result ("**Error**\n\nFailed to describe table: "
                          +:+ error_text error))).

Definition listRecords_handler (airtableService : AirtableService)
    (args : ListRecords.Args) : Net ToolResult.t :=
  let baseId := ListRecords.baseId args in
  let tableId := ListRecords.tableId args in
  try_catch
    (result <- listRecords airtableService baseId tableId
                 {| ListOptions.view := ListRecords.view args;
                    ListOptions.maxRecords := ListRecords.maxRecords args;
                    ListOptions.sort := ListRecords.sort args;
                    ListOptions.filterByFormula := ListRecords.filterByFormula args |} ;;
     ret (text_result (json_block ("**Records from " +:+ tableId +:+ "**") result)))
    (fun error =>
       ret (error_result ("**Error**\n\nFailed to list records: " +:+ error_text error))).

Definition getRecord_handler (airtableService : AirtableService)
    (args : GetRecord.Args) : Net ToolResult.t :=
  let baseId := GetRecord.baseId args in
  let tableId := GetRecord.tableId args in
  let recordId := GetRecord.recordId args in
  try_catch
    (result <- getRecord airtableService baseId tableId recordId ;;
     ret (text_result (json_block ("**Record " +:+ recordId +:+ "**") result)))
    (fun error =>
       ret (error_result ("**Error**\n\nFailed to get record: " +:+ error_text error))).

Definition searchRecords_handler (airtableService : AirtableService)
    (args : SearchRecords.Args) : Net ToolResult.t :=
  let baseId := SearchRecords.baseId args in
  let tableId := SearchRecords.tableId args in
  try_catch
    (result <- listRecords airtableService baseId tableId
                 {| ListOptions.view := None;
                    ListOptions.maxRecords := SearchRecords.maxRecords args;
                    ListOptions.sort := None;
                    ListOptions.filterByFormula :=
                      Some (SearchRecords.filterByFormula args) |} ;;
     ret (text_result (json_block "**Search Results**" result)))
    (fun error =>
       ret (error_result ("**Error**\n\nFailed to search records: "
                          +:+ error_text error))).

Definition createRecord_handler (airtableService : AirtableService)
    (args : CreateRecord.Args) : Net ToolResult.t :=
  let baseId := CreateRecord.baseId args in
  let tableId := CreateRecord.tableId args in
  try_catch
    (result <- createRecord airtableService baseId tableId (CreateRecord.fields args) ;;
     ret (text_result (json_block "**Record Created**" result)))
    (fun error =>
       ret (error_result ("**Error**\n\nFailed to create record: "
                          +:+ error_text error))).

Definition updateRecords_handler (airtableService : AirtableService)
    (args : UpdateRecords.Args) : Net ToolResult.t :=
  let baseId := UpdateRecords.baseId args in
  let tableId := UpdateRecords.tableId args in
  try_catch
    (result <- updateRecords airtableService baseId tableId
                 (UpdateRecords.records args) ;;
     ret (text_result (json_block "**Records Updated**" result)))
    (fun error =>
       ret (error_result ("**Error**\n\nFailed to update records: "
                          +:+ error_text error))).

Definition deleteRecords_handler (airtableService : AirtableService)
    (args : DeleteRecords.Args) : Net ToolResult.t :=
  let baseId := DeleteRecords.baseId args in
  let tableId := DeleteRecords.tableId args in
  try_catch
    (result <- deleteRecords airtableService baseId tableId
                 (DeleteRecords.recordIds args) ;;
     ret (text_result (json_block "**Records Deleted**" result)))
    (fun error =>
       ret (error_result ("**Error**\n\nFailed to delete records: "
                          +:+ error_text error))).

(* --------------------------------------------------------------- *)
(** *** [registerAirtableTools] *)

Definition registerAirtableTools (env : Env) (props : Props) : Eff AgentState unit :=
  let airtableService := new_AirtableService (AIRTABLE_API_KEY env) in
  _ <- tool "listBases"
         "List all Airtable bases accessible with the provided API key"
         ListBasesSchema (listBases_handler airtableService) ;;
  _ <- tool "listTables"
         "List all tables in a specific Airtable base"
         ListTablesSchema (listTables_handler airtableService) ;;
  _ <- tool "describeTable"
         "Get detailed information about a specific table including fields and views"
         DescribeTableSchema (describeTable_handler airtableService) ;;
  _ <- tool "listRecords"
         "List records from a specific table with optional filtering and sorting"
         ListRecordsSchema (listRecords_handler airtableService) ;;
  _ <- tool "getRecord"
         "Get a specific record by ID"
         GetRecordSchema (getRecord_handler airtableService) ;;
  _ <- tool "searchRecords"
         "Search records using Airtable formula filtering"
         SearchRecordsSchema (searchRecords_handler airtableService) ;;
  _ <- (if bool_decide (login props ∈ ALLOWED_WRITE_USERNAMES) then
          _ <- tool "createRecord"
                 "Create a new record in a table"
                 CreateRecordSchema (createRecord_handler airtableService) ;;
          _ <- tool "updateRecords"
                 "Update multiple records in a table"
                 UpdateRecordsSchema (updateRecords_handler airtableService) ;;
          tool "deleteRecords"
            "Delete multiple records from a table"
            DeleteRecordsSchema (deleteRecords_handler airtableService)
        else ret tt) ;;
  _ <- console_log ("Airtable MCP tools registered for user: " +:+ login props
                    +:+ " (" +:+ name props +:+ ")") ;;
  console_log ("Write access: "
               +:+ (if bool_decide (login props ∈ ALLOWED_WRITE_USERNAMES)
                    then "enabled" else "disabled")).

(* --------------------------------------------------------------- *)
(** *** The agent of [index.ts] *)

(** A new agent: its [server] field is a fresh [McpServer]. *)
Definition new_AirtableMCP : AgentState :=
  {| server := new_McpServer; console := [] |}.

Definition cleanup : Eff AgentState unit :=
  try_catch
    (console_log "Airtable MCP server cleanup completed successfully")
    (fun error => console_error "Error during cleanup:" error).

Definition alarm : Eff AgentState unit := cleanup.

Definition init (env : Env) (props : Props) : Eff AgentState unit :=
  registerAirtableTools env props.

(** The session an identity gets: a new agent after [init]. *)
Definition session (env : Env) (props : Props) : AgentState :=
  (init env props new_AirtableMCP).2.

(* --------------------------------------------------------------- *)
(** *** Dispatch of a command *)

(** The three ways a command can end. *)
Inductive CallOutcome : Type :=
| ToolNotFound
| InvalidArguments (found : list ZodIssue)
| Returned (result : ToolResult.t).

(** Modelled from the spec: the dispatcher belongs to the MCP SDK, which
    is not part of the sources.  Per sections 4.2 and 4.3 a command for a
    name outside the registry is answered "not found" before any
    validation, and the arguments are validated against the tool's schema
    before its callback runs; a validation failure ends the command.
    This is the dispatch of the specification: what is stated through its
    validation holds of a dispatcher that applies the schema it was given
    (see [tool]).  What a schema rejects is stated on the schema
    ([accepts]), and what a callback sends on the callback. *)
Definition callTool (s : McpServer) (operationName : string)
    (rawArguments : option JSON) : Net CallOutcome :=
  match lookup_tool operationName (registeredTools s) with
  | None => ret ToolNotFound
  | Some t =>
      match safeParse (inputSchema t) rawArguments with
      | inl found => ret (InvalidArguments found)
      | inr args => result <- callback t args ;; ret (Returned result)
      end
  end.

End Gateway.

(* ================================================================= *)
(** ** Vocabulary of the specification *)

(** The nine operations and their classification: the first six are
    "available to all authenticated users", the last three are the "write
    operations - only for privileged users". *)
Inductive Operation : Type :=
| op_listBases | op_listTables | op_describeTable
| op_listRecords | op_getRecord | op_searchRecords
| op_createRecord | op_updateRecords | op_deleteRecords.

Inductive Classification : Type := READ | WRITE.

Definition operation_name (op : Operation) : string :=
  match op with
  | op_listBases => "listBases"
  | op_listTables => "listTables"
  | op_describeTable => "describeTable"
  | op_listRecords => "listRecords"
  | op_getRecord => "getRecord"
  | op_searchRecords => "searchRecords"
  | op_createRecord => "createRecord"
  | op_updateRecords => "updateRecords"
  | op_deleteRecords => "deleteRecords"
  end.

Definition classification (op : Operation) : Classification :=
  match op with
  | op_createRecord | op_updateRecords | op_deleteRecords => WRITE
  | _ => READ
  end.

(** The request [makeRequest] hands to [fetch], and what it makes of the
    answer. *)
Definition request_of (this : AirtableService) (endpoint : string)
    (options : RequestInit.t) : Request.t :=
  {| Request.url := baseUrl this +:+ endpoint;
     Request.init :=
       {| RequestInit.method := RequestInit.method options;
          RequestInit.headers :=
            spread_headers
              [("Authorization", "Bearer " +:+ apiKey this);
               ("Content-Type", "application/json")]
              (RequestInit.headers options);
          RequestInit.body := RequestInit.body options |} |}.

Definition outcome_of (rt : Runtime) (answer : Thrown + Response.t) : Thrown + JSON :=
  match answer with
  | inl e => inl e
  | inr response =>
      if Response.ok response then Response.json response
      else
        match Response.text response with
        | inl e => inl e
        | inr error =>
            inl (ErrorObj ("Airtable API error: "
                           +:+ Number_toString rt (Response.status response) +:+ " "
                           +:+ Response.statusText response +:+ " - " +:+ error))
        end
  end.

(** The issues the schema of an operation finds in the raw arguments. *)
Definition schema_issues (op : Operation) (raw : option JSON) : list ZodIssue :=
  match op with
  | op_listBases => issues (ListBasesSchema [] raw)
  | op_listTables => issues (ListTablesSchema [] raw)
  | op_describeTable => issues (DescribeTableSchema [] raw)
  | op_listRecords => issues (ListRecordsSchema [] raw)
  | op_getRecord => issues (GetRecordSchema [] raw)
  | op_searchRecords => issues (SearchRecordsSchema [] raw)
  | op_createRecord => issues (CreateRecordSchema [] raw)
  | op_updateRecords => issues (UpdateRecordsSchema [] raw)
  | op_deleteRecords => issues (DeleteRecordsSchema [] raw)
  end.

(** The two batch mutations, for statements that cover both. *)
Inductive BatchCall : Type :=
| UpdateCall (args : UpdateRecords.Args)
| DeleteCall (args : DeleteRecords.Args).

Definition batch_request (rt : Runtime) (this : AirtableService) (c : BatchCall)
    : Request.t :=
  match c with
  | UpdateCall a =>
      request_of this ("/" +:+ UpdateRecords.baseId a +:+ "/" +:+ UpdateRecords.tableId a)
        {| RequestInit.method := Some "PATCH";
           RequestInit.headers := [];
           RequestInit.body :=
             Some (JSON_stringify rt
                     (JObject [("records",
                                JArray (map update_json (UpdateRecords.records a)))]) 0) |}
  | DeleteCall a =>
      request_of this
        ("/" +:+ DeleteRecords.baseId a +:+ "/" +:+ DeleteRecords.tableId a +:+ "?"
         +:+ params_toString (map (fun id => ("records[]", id)) (DeleteRecords.recordIds a)))
        {| RequestInit.method := Some "DELETE";
           RequestInit.headers := [];
           RequestInit.body := None |}
  end.

Definition batch_adapter (rt : Runtime) (fetch : Request.t -> Thrown + Response.t)
    (this : AirtableService) (c : BatchCall) : Net JSON :=
  match c with
  | UpdateCall a =>
      updateRecords rt fetch this (UpdateRecords.baseId a) (UpdateRecords.tableId a)
        (UpdateRecords.records a)
  | DeleteCall a =>
      deleteRecords rt fetch this (DeleteRecords.baseId a) (DeleteRecords.tableId a)
        (DeleteRecords.recordIds a)
  end.

Definition batch_handler (rt : Runtime) (fetch : Request.t -> Thrown + Response.t)
    (this : AirtableService) (c : BatchCall) : Net ToolResult.t :=
  match c with
  | UpdateCall a => updateRecords_handler rt fetch this a
  | DeleteCall a => deleteRecords_handler rt fetch this a
  end.

Definition batch_heading (c : BatchCall) : string :=
  match c with
  | UpdateCall _ => "**Records Updated**"
  | DeleteCall _ => "**Records Deleted**"
  end.

(** A member of the raw argument object. *)
Definition raw_member (k : string) (raw : option JSON) : option JSON :=
  match raw with
  | Some (JObject members) => member k members
  | _ => None
  end.

(** Whether the raw arguments are an object at all. *)
Definition is_object (raw : option JSON) : bool :=
  match raw with
  | Some (JObject _) => true
  | _ => false
  end.

(** The two batch tools, updateRecords and deleteRecords, and the key of
    the batch in their raw arguments. *)
Inductive BatchTool : Type := UpdateTool | DeleteTool.

Definition batch_key (b : BatchTool) : string :=
  match b with
  | UpdateTool => "records"
  | DeleteTool => "recordIds"
  end.

Definition batch_issues (b : BatchTool) (raw : option JSON) : list ZodIssue :=
  match b with
  | UpdateTool => issues (UpdateRecordsSchema [] raw)
  | DeleteTool => issues (DeleteRecordsSchema [] raw)
  end.

(** Whether a schema accepts the raw arguments. *)
Definition accepts {A} (schema : ZodType A) (raw : option JSON) : bool :=
  match safeParse schema raw with
  | inl _ => false
  | inr _ => true
  end.

Definition batch_accepts (b : BatchTool) (raw : option JSON) : bool :=
  match b with
  | UpdateTool => accepts UpdateRecordsSchema raw
  | DeleteTool => accepts DeleteRecordsSchema raw
  end.

(** The number of entries of the batch in the raw arguments. *)
Definition batch_length (b : BatchTool) (raw : option JSON) : option nat :=
  match raw_member (batch_key b) raw with
  | Some (JArray entries) => Some (length entries)
  | _ => None
  end.

(** The two tools that take [maxRecords]: listRecords and
    searchRecords. *)
Inductive ListingTool : Type := ListTool | SearchTool.

Definition listing_issues (l : ListingTool) (raw : option JSON) : list ZodIssue :=
  match l with
  | ListTool => issues (ListRecordsSchema [] raw)
  | SearchTool => issues (SearchRecordsSchema [] raw)
  end.

Definition listing_accepts (l : ListingTool) (raw : option JSON) : bool :=
  match l with
  | ListTool => accepts ListRecordsSchema raw
  | SearchTool => accepts SearchRecordsSchema raw
  end.

(** The parameters one sort entry contributes at position [index]. *)
Definition sort_entry_params (index : nat) (sortItem : SortItem.t) : URLSearchParams :=
  ("sort[" +:+ index_toString index +:+ "][field]", SortItem.field sortItem)
  :: match SortItem.direction sortItem with
     | Some d => [("sort[" +:+ index_toString index +:+ "][direction]", direction_text d)]
     | None => []
     end.

Fixpoint sort_params (index : nat) (items : list SortItem.t) : URLSearchParams :=
  match items with
  | [] => []
  | sortItem :: rest => sort_entry_params index sortItem ++ sort_params (S index) rest
  end.

(** Following the specification's words ("direction optional, defaults to
    ascending"): a sort entry with a missing direction filled in. *)
Definition default_ascending (sortItem : SortItem.t) : SortItem.t :=
  {| SortItem.field := SortItem.field sortItem;
     SortItem.direction :=
       match SortItem.direction sortItem with
       | Some d => Some d
       | None => Some asc
       end |}.

(** The options the listRecords callback passes to the adapter, and the
    arguments with every missing direction filled in. *)
Definition list_options (args : ListRecords.Args) : ListOptions.t :=
  {| ListOptions.view := ListRecords.view args;
     ListOptions.maxRecords := ListRecords.maxRecords args;
     ListOptions.sort := ListRecords.sort args;
     ListOptions.filterByFormula := ListRecords.filterByFormula args |}.

Definition ascending_where_missing (args : ListRecords.Args) : ListRecords.Args :=
  {| ListRecords.baseId := ListRecords.baseId args;
     ListRecords.tableId := ListRecords.tableId args;
     ListRecords.view := ListRecords.view args;
     ListRecords.maxRecords := ListRecords.maxRecords args;
     ListRecords.sort := option_map (map default_ascending) (ListRecords.sort args);
     ListRecords.filterByFormula := ListRecords.filterByFormula args |}.



(** A type reports its issues at or below the path it is given; so does
    the shape of an object. *)
Definition below {A} (t : ZodType A) : Prop :=
  forall p input i, In i (issues (t p input)) -> exists suffix, path i = p ++ suffix.

Definition shape_below {A} (s : Shape A) : Prop :=
  forall p members i, In i (issues (s p members)) -> exists suffix, path i = p ++ suffix.

(** The issue a batch of the wrong size raises, with the message the
    source gives it. *)
Definition bound_issue (b : BatchTool) (too_many : bool) : ZodIssue :=
  {| code := if too_many then too_big else too_small;
     path := [PKey (batch_key b)];
     message :=
       Some match b, too_many with
            | UpdateTool, true => "Maximum 10 records allowed"
            | UpdateTool, false => "At least one record is required"
            | DeleteTool, true => "Maximum 10 record IDs allowed"
            | DeleteTool, false => "At least one record ID is required"
            end |}.

(** A content item that reports a failure: a text headed [**Error**]
    with the flag [isError: true] on the item. *)
Definition reports_failure (item : ContentItem.t) : Prop :=
  ContentItem.type item = "text"
  /\ ContentItem.isError item = Some true
  /\ exists m, ContentItem.text item = "**Error**\n\n" +:+ m.

(** A content item that shows a value: a text made of a heading and the
    fenced rendering of the value, without any flag. *)
Definition shows_value (rt : Runtime) (item : ContentItem.t) : Prop :=
  ContentItem.type item = "text"
  /\ ContentItem.isError item = None
  /\ exists heading value,
       ContentItem.text item
       = heading +:+ "\n\n```json\n" +:+ JSON_stringify rt value 2 +:+ "\n```".

(** A callback [answers] when, from any log, it issues one request and
    returns normally with a result that holds one content item and has no
    [isError] of its own.  The item reports a failure when the request
    failed; when the request succeeded it shows a value or, for a callback
    that does not [always] succeed then, reports a failure. *)
Definition answers (rt : Runtime) (fetch : Request.t -> Thrown + Response.t)
    (always : bool) (h : Net ToolResult.t) : Prop :=
  forall sent, exists req item,
    h sent = (inr {| ToolResult.content := [item]; ToolResult.isError := None |},
              sent ++ [req])
    /\ match outcome_of rt (fetch req) with
       | inl _ => reports_failure item
       | inr _ => shows_value rt item \/ (always = false /\ reports_failure item)
       end.

(** *** Vocabulary of the further properties *)

(** The operations whose schema declares [tableId]: all but listBases and
    listTables. *)
Definition takes_tableId (op : Operation) : bool :=
  match op with
  | op_listBases | op_listTables => false
  | _ => true
  end.

(** The [method] each operation's adapter call passes to [makeRequest];
    the read operations pass none. *)
Definition method_of (op : Operation) : option string :=
  match op with
  | op_createRecord => Some "POST"
  | op_updateRecords => Some "PATCH"
  | op_deleteRecords => Some "DELETE"
  | _ => None
  end.

(** A callback [sends] requests of a kind when, from any log, it adds
    exactly one request to the log and that request is of the kind. *)
Definition sends (kind : Request.t -> Prop) (h : Net ToolResult.t) : Prop :=
  forall sent, exists req, (h sent).2 = sent ++ [req] /\ kind req.

(** A request built by [makeRequest] for an endpoint under the service's
    base, with the given method, without headers of the caller's. *)
Definition built_for (this : AirtableService) (m : option string) (req : Request.t) : Prop :=
  exists endpoint options,
    req = request_of this endpoint options
    /\ (exists rest, endpoint = "/" +:+ rest)
    /\ RequestInit.method options = m
    /\ RequestInit.headers options = []
    /\ (m = None -> RequestInit.body options = None).

(** The byte strings that are the UTF-8 encoding of a sequence of
    Unicode scalar values: one to four bytes per value, shortest form, no
    surrogate, nothing above U+10FFFF. *)
Definition byte_between (lo hi : N) (c : ascii) : bool :=
  ((lo <=? N_of_ascii c) && (N_of_ascii c <=? hi))%N.

Fixpoint well_formed (s : string) : bool :=
  match s with
  | EmptyString => true
  | String c rest =>
      let n := N_of_ascii c in
      if (n <? 128)%N then well_formed rest
      else if byte_between 194 223 c then
        match rest with
        | String c1 rest1 => byte_between 128 191 c1 && well_formed rest1
        | _ => false
        end
      else if byte_between 224 239 c then
        match rest with
        | String c1 (String c2 rest2) =>
            byte_between (if (n =? 224)%N then 160 else 128)
                         (if (n =? 237)%N then 159 else 191) c1
            && byte_between 128 191 c2 && well_formed rest2
        | _ => false
        end
      else if byte_between 240 244 c then
        match rest with
        | String c1 (String c2 (String c3 rest3)) =>
            byte_between (if (n =? 240)%N then 144 else 128)
                         (if (n =? 244)%N then 143 else 191) c1
            && byte_between 128 191 c2 && byte_between 128 191 c3
            && well_formed rest3
        | _ => false
        end
      else false
  end.

Definition well_formed_entry (kv : string * string) : bool :=
  well_formed kv.1 && well_formed kv.2.

(** Reading a query string back: the inverse of [params_toString], used
    to show that the serializer loses nothing.  [hex_value] reads one of
    the digits [hex_digit] writes. *)
Definition hex_value (c : ascii) : N :=
  let n := N_of_ascii c in
  if (n <? 58)%N then (n - 48)%N else (n - 55)%N.

(** [+] is a space and [%XY] the byte with hex digits [XY]. *)
Fixpoint form_decode (s : string) : string :=
  match s with
  | EmptyString => EmptyString
  | String c rest =>
      if (N_of_ascii c =? 43)%N then String " "%char (form_decode rest)
      else if (N_of_ascii c =? 37)%N then
        match rest with
        | String h (String l rest') =>
            String (ascii_of_N (16 * hex_value h + hex_value l)) (form_decode rest')
        | _ => String c (form_decode rest)
        end
      else String c (form_decode rest)
  end.

(** The string holds no [sep]. *)
Fixpoint lacks (sep : ascii) (s : string) : bool :=
  match s with
  | EmptyString => true
  | String c rest => negb (Ascii.eqb c sep) && lacks sep rest
  end.

(** The pieces of a string between the occurrences of [sep]. *)
Fixpoint fields (sep : ascii) (s : string) : list string :=
  match s with
  | EmptyString => [EmptyString]
  | String c rest =>
      if Ascii.eqb c sep then EmptyString :: fields sep rest
      else match fields sep rest with
           | x :: xs => String c x :: xs
           | [] => [String c EmptyString]
           end
  end.

(** One [key=value] piece, decoded. *)
Definition parse_pair (kv : string) : string * string :=
  match fields "="%char kv with
  | [k; v] => (form_decode k, form_decode v)
  | _ => (form_decode kv, EmptyString)
  end.

(** The pairs of a query string; the empty string holds none. *)
Definition parse_query (s : string) : URLSearchParams :=
  match s with
  | EmptyString => []
  | _ => map parse_pair (fields "&"%char s)
  end.

(** What [params_toString] writes for one pair. *)
Definition entry_text (kv : string * string) : string :=
  form_encode kv.1 +:+ "=" +:+ form_encode kv.2.


(* ================================================================= *)
(** ** A runtime and providers to run examples with

    The theorems below hold for every runtime and every provider; these
    instances only serve to evaluate the definitions on concrete inputs.
    The rendering is compact and prints the integral part of a number. *)

Definition quote_mark : string := String (ascii_of_nat 34) EmptyString.

Definition decimal (n : number) : string :=
  NilZero.string_of_int (Z.to_int (Qnum n / Z.pos (Qden n))).

Fixpoint render (v : JSON) : string :=
  match v with
  | JNull => "null"
  | JBool true => "true"
  | JBool false => "false"
  | JNumber n => decimal n
  | JString s => quote_mark +:+ s +:+ quote_mark
  | JArray items => "[" +:+ String.concat "," (map render items) +:+ "]"
  | JObject members =>
      "{" +:+ String.concat ","
                (map (fun kv => let '(k, x) := kv in
                                quote_mark +:+ k +:+ quote_mark +:+ ":" +:+ render x)
                     members) +:+ "}"
  end.

Definition sample_runtime : Runtime :=
  {| JSON_stringify := fun v _ => render v; Number_toString := decimal |}.

Definition answer_with (r : Response.t) : Request.t -> Thrown + Response.t :=
  fun _ => inr r.

Definition success_response (v : JSON) : Response.t :=
  {| Response.ok := true; Response.status := 200%Q; Response.statusText := "OK";
     Response.text := inr (render v); Response.json := inr v |}.

Definition failure_response (status : number) (statusText body : string) : Response.t :=
  {| Response.ok := false; Response.status := status; Response.statusText := statusText;
     Response.text := inr body;
     Response.json := inl (ErrorObj "Unexpected token in JSON") |}.

Definition sample_env : Env := {| AIRTABLE_API_KEY := "key" |}.

Definition alice : Props := {| login := "alice"; name := "Alice" |}.

Definition bob : Props := {| login := "bob"; name := "Bob" |}.

Definition only_bob : gset string := {["bob"]}.

(** Inputs of the examples. *)
Definition sample_service : AirtableService := new_AirtableService "key".

Definition three_outcomes : JSON :=
  JObject [("records",
            JArray [JObject [("id", JString "rec1"); ("deleted", JBool true)];
                    JObject [("id", JString "rec2"); ("deleted", JBool false)];
                    JObject [("id", JString "rec3"); ("deleted", JBool true)]])].

Definition delete_three : BatchCall :=
  DeleteCall {| DeleteRecords.baseId := "app1"; DeleteRecords.tableId := "tbl1";
                DeleteRecords.recordIds := ["rec1"; "rec2"; "rec3"] |}.

Definition eleven_updates : option JSON :=
  Some (JObject [("baseId", JString "app1"); ("tableId", JString "tbl1");
                 ("records",
                  JArray (repeat (JObject [("id", JString "rec1"); ("fields", JObject [])])
                            11))]).

Definition too_many_records : option JSON :=
  Some (JObject [("baseId", JString "app1"); ("tableId", JString "tbl1");
                 ("maxRecords", JNumber 101%Q)]).

Definition eleven_updates_args : UpdateRecords.Args :=
  {| UpdateRecords.baseId := "app1"; UpdateRecords.tableId := "tbl1";
     UpdateRecords.records :=
       repeat {| RecordUpdate.id := "rec1"; RecordUpdate.fields := [] |} 11 |}.

Definition too_many_records_args : ListRecords.Args :=
  {| ListRecords.baseId := "app1"; ListRecords.tableId := "tbl1";
     ListRecords.view := None; ListRecords.maxRecords := Some 101%Q;
     ListRecords.sort := None; ListRecords.filterByFormula := None |}.

Definition sort_by_name : ListRecords.Args :=
  {| ListRecords.baseId := "app1"; ListRecords.tableId := "tbl1";
     ListRecords.view := None; ListRecords.maxRecords := None;
     ListRecords.sort := Some [{| SortItem.field := "Name"; SortItem.direction := None |}];
     ListRecords.filterByFormula := None |}.

Definition unprocessable : Response.t :=
  failure_response 422%Q "Unprocessable Entity" "INVALID_REQUEST_UNKNOWN at row 7".

Definition sample_listBases_tool : RegisteredTool :=
  {| description := "List all Airtable bases accessible with the provided API key";
     Args := unit;
     inputSchema := ListBasesSchema;
     callback := listBases_handler sample_runtime (answer_with unprocessable)
                   (new_AirtableService "key") |}.

(** Further inputs of the examples. *)
Definition sample_deleteRecords_tool : RegisteredTool :=
  {| description := "Delete multiple records from a table";
     Args := DeleteRecords.Args;
     inputSchema := DeleteRecordsSchema;
     callback := deleteRecords_handler sample_runtime
                   (answer_with (success_response three_outcomes))
                   (new_AirtableService "key") |}.

Definition sample_getRecord_tool : RegisteredTool :=
  {| description := "Get a specific record by ID";
     Args := GetRecord.Args;
     inputSchema := GetRecordSchema;
     callback := getRecord_handler sample_runtime
                   (answer_with (success_response JNull))
                   (new_AirtableService "key") |}.

Definition delete_two : DeleteRecords.Args :=
  {| DeleteRecords.baseId := "app1"; DeleteRecords.tableId := "tbl1";
     DeleteRecords.recordIds := ["rec1"; "rec 2&3"] |}.

Definition get_rec1 : list (string * JSON) :=
  [("baseId", JString "app1"); ("tableId", JString "tbl1"); ("recordId", JString "rec1")].

Definition orders_table : JSON :=
  JObject [("id", JString "tbl2"); ("name", JString "Orders")].

Definition two_tables : JSON :=
  JObject [("tables",
            JArray [JObject [("id", JString "tbl1"); ("name", JString "Users")];
                    orders_table])].

Definition describe_tbl2 : DescribeTable.Args :=
  {| DescribeTable.baseId := "app1"; DescribeTable.tableId := "tbl2" |}.

Definition describe_tbl9 : DescribeTable.Args :=
  {| DescribeTable.baseId := "app1"; DescribeTable.tableId := "tbl9" |}.

Definition search_open : option JSON :=
  Some (JObject [("baseId", JString "app1"); ("tableId", JString "tbl1");
                 ("filterByFormula", JString "{Status}='Open'");
                 ("maxRecords", JNumber 5%Q)]).

Definition search_open_args : SearchRecords.Args :=
  {| SearchRecords.baseId := "app1"; SearchRecords.tableId := "tbl1";
     SearchRecords.filterByFormula := "{Status}='Open'";
     SearchRecords.maxRecords := Some 5%Q |}.

Definition list_five : option JSON :=
  Some (JObject [("baseId", JString "app1"); ("tableId", JString "tbl1");
                 ("maxRecords", JNumber 5%Q)]).

Definition list_five_args : ListRecords.Args :=
  {| ListRecords.baseId := "app1"; ListRecords.tableId := "tbl1";
     ListRecords.view := None; ListRecords.maxRecords := Some 5%Q;
     ListRecords.sort := None; ListRecords.filterByFormula := None |}.

Definition sort_upwards : list (string * JSON) :=
  [("baseId", JString "app1"); ("tableId", JString "tbl1");
   ("sort", JArray [JObject [("field", JString "Name"); ("direction", JString "up")]])].



(** The allow-list as the source ships it. *)
Definition shipped_allow_list : gset string := ∅.

(* ================================================================= *)
(** ** How the adapter and the callbacks run *)

Section Runs.

Context (rt : Runtime) (fetch : Request.t -> Thrown + Response.t).

(** [makeRequest] issues exactly one request and turns the answer into
    a value or a thrown error. *)
Lemma makeRequest_run this endpoint options sent :
  makeRequest rt fetch this endpoint options sent
  = (outcome_of rt (fetch (request_of this endpoint options)),
     sent ++ [request_of this endpoint options]).
Proof.
  unfold makeRequest, bind, do_fetch, outcome_of, request_of, lift, throw.
  destruct (fetch _) as [e | response]; [reflexivity |].
  destruct (Response.ok response); simpl; [reflexivity |].
  destruct (Response.text response); reflexivity.
Qed.

(** The shape shared by the callbacks: a guarded call whose value is
    rendered and whose error is reported. *)
Lemma guarded_run {A} (call : Net A) (done : A -> ToolResult.t)
    (failed : Thrown -> ToolResult.t) sent :
  try_catch (result <- call ;; ret (done result)) (fun error => ret (failed error)) sent
  = match call sent with
    | (inr result, sent') => (inr (done result), sent')
    | (inl error, sent') => (inr (failed error), sent')
    end.
Proof.
  unfold try_catch, bind, ret.
  destruct (call sent) as [[error | result] sent']; reflexivity.
Qed.

Lemma delete_params (recordIds : list string) (params : URLSearchParams) :
  fold_left (fun params id => params_append "records[]" id params) recordIds params
  = params ++ map (fun id => ("records[]", id)) recordIds.
Proof.
  revert params.
  induction recordIds as [| id rest IH]; intros params; simpl.
  - by rewrite app_nil_r.
  - rewrite IH. unfold params_append. by rewrite <- app_assoc.
Qed.

Lemma batch_adapter_run this c sent :
  batch_adapter rt fetch this c sent
  = (outcome_of rt (fetch (batch_request rt this c)), sent ++ [batch_request rt this c]).
Proof.
  destruct c as [a | a]; simpl.
  - unfold updateRecords. apply makeRequest_run.
  - unfold deleteRecords. rewrite delete_params. simpl. apply makeRequest_run.
Qed.

End Runs.

(** The serialized parameters are empty exactly when there is none. *)
Lemma entry_non_empty kv rest :
  exists c s, String.concat "&" (map entry_text (kv :: rest)) = String c s.
Proof.
  assert (H : exists c s, entry_text kv = String c s).
  { destruct kv as [k v]. unfold entry_text. simpl.
    destruct (form_encode k) as [| c s]; simpl; eauto. }
  destruct H as (c & s & H). simpl. rewrite H.
  destruct rest; simpl; eauto.
Qed.

Lemma params_text_truthy (p : URLSearchParams) :
  string_truthy (params_toString p) = match p with [] => false | _ => true end.
Proof.
  destruct p as [| kv rest]; [reflexivity |].
  unfold params_toString.
  change (fun kv : string * string => form_encode kv.1 +:+ "=" +:+ form_encode kv.2)
    with entry_text.
  by destruct (entry_non_empty kv rest) as (c & s & ->).
Qed.

Lemma params_text_empty (p : URLSearchParams) :
  string_truthy (params_toString p) = false -> p = [].
Proof.
  destruct p as [| kv rest]; [reflexivity |].
  unfold params_toString.
  change (fun kv : string * string => form_encode kv.1 +:+ "=" +:+ form_encode kv.2)
    with entry_text.
  destruct (entry_non_empty kv rest) as (c & s & ->). discriminate.
Qed.

(** The parameters of a listing, option by option. *)
Lemma append_sort_params index items params :
  append_sort index items params = params ++ sort_params index items.
Proof.
  revert index params.
  induction items as [| [field direction] rest IH]; intros index params; simpl.
  - by rewrite app_nil_r.
  - rewrite IH. unfold params_append, sort_entry_params. simpl.
    destruct direction as [d |]; by rewrite <- !app_assoc.
Qed.

Lemma listRecords_params_split rt options :
  listRecords_params rt options
  = append_if string_truthy (ListOptions.view options) "view" id []
    ++ append_if number_truthy (ListOptions.maxRecords options) "maxRecords"
         (Number_toString rt) []
    ++ append_if string_truthy (ListOptions.filterByFormula options) "filterByFormula" id []
    ++ match ListOptions.sort options with
       | Some items => sort_params 0 items
       | None => []
       end.
Proof.
  unfold listRecords_params.
  destruct (ListOptions.sort options) as [items |]; [rewrite append_sort_params |];
    unfold append_if, params_append;
    destruct (ListOptions.view options) as [v |]; [destruct (string_truthy v) | | destruct (string_truthy v) |];
    destruct (ListOptions.maxRecords options) as [n |]; try destruct (number_truthy n);
    destruct (ListOptions.filterByFormula options) as [f |]; try destruct (string_truthy f);
    simpl; rewrite ?app_nil_r; try reflexivity; rewrite <- ?app_assoc; reflexivity.
Qed.

(** The adapter sends whatever limit it is given, as long as it is truthy. *)
Lemma limit_in_params rt options (n : number) :
  ListOptions.maxRecords options = Some n ->
  number_truthy n = true ->
  In ("maxRecords", Number_toString rt n) (listRecords_params rt options).
Proof.
  intros Hn Htruthy. rewrite listRecords_params_split.
  apply in_or_app. right. apply in_or_app. left.
  unfold append_if, params_append. rewrite Hn, Htruthy. by left.
Qed.

(* ================================================================= *)
(** ** The session's registry *)

Section Sessions.

Context (rt : Runtime) (fetch : Request.t -> Thrown + Response.t).
Variable ALLOWED_WRITE_USERNAMES : gset string.

(** On a new agent no name is taken, so [init] returns normally. *)
Lemma init_returns env props :
  (init rt fetch ALLOWED_WRITE_USERNAMES env props new_AirtableMCP).1 = inr tt.
Proof.
  unfold init, registerAirtableTools.
  destruct (bool_decide (login props ∈ ALLOWED_WRITE_USERNAMES)); reflexivity.
Qed.

(** The registry in registration order. *)
Lemma session_tool_names env props :
  tool_names (server (session rt fetch ALLOWED_WRITE_USERNAMES env props))
  = map operation_name
      [op_listBases; op_listTables; op_describeTable;
       op_listRecords; op_getRecord; op_searchRecords]
    ++ (if bool_decide (login props ∈ ALLOWED_WRITE_USERNAMES)
        then map operation_name [op_createRecord; op_updateRecords; op_deleteRecords]
        else []).
Proof.
  unfold session, init, registerAirtableTools.
  destruct (bool_decide (login props ∈ ALLOWED_WRITE_USERNAMES)); reflexivity.
Qed.

(** C1. In the session built for an identity, each READ operation is
    registered whatever the login, and each WRITE operation
    (createRecord, updateRecords, deleteRecords) is registered exactly
    when the login belongs to the allow-list the registration ran with. *)
Theorem write_tools_iff_allowed env props (op : Operation) :
  let registry := server (session rt fetch ALLOWED_WRITE_USERNAMES env props) in
  match classification op with
  | READ => has_tool (operation_name op) registry = true
  | WRITE =>
      has_tool (operation_name op) registry = true
      <-> login props ∈ ALLOWED_WRITE_USERNAMES
  end.
Proof.
  unfold session, init, registerAirtableTools.
  destruct (bool_decide_reflect (login props ∈ ALLOWED_WRITE_USERNAMES)) as [Hin | Hout];
    destruct op; simpl; try reflexivity.
  all: try (split; [intros _; assumption | reflexivity]).
  all: split; [discriminate | intros ?; contradiction].
Qed.

End Sessions.

(** With the allow-list as shipped, nobody gets a WRITE operation. *)
Lemma shipped_sessions_are_read_only rt fetch env props :
  tool_names (server (session rt fetch shipped_allow_list env props))
  = ["listBases"; "listTables"; "describeTable"; "listRecords"; "getRecord";
     "searchRecords"].
Proof. reflexivity. Qed.

(* ================================================================= *)
(** ** Teardown *)

Lemma cleanup_run (s : AgentState) :
  cleanup s
  = (inr tt,
     {| server := server s;
        console := console s
                   ++ [console_log_line "Airtable MCP server cleanup completed successfully"] |}).
Proof. reflexivity. Qed.

(** C9. Teardown twice: both invocations of [cleanup] return normally, the
    agent's server after the second is the one after the first (the one
    before any teardown), and only the console grows, by one line per
    invocation.  The idle alarm runs the same [cleanup]. *)
Theorem cleanup_idempotent (s : AgentState) :
  let once := cleanup s in
  let twice := cleanup once.2 in
  once.1 = inr tt /\ twice.1 = inr tt
  /\ server twice.2 = server once.2
  /\ server once.2 = server s
  /\ length (console twice.2) = S (length (console once.2))
  /\ alarm s = cleanup s
  /\ (alarm (alarm s).2).1 = inr tt.
Proof.
  simpl. rewrite !length_app. simpl. repeat split; lia.
Qed.

(* ================================================================= *)
(** ** What every callback returns *)

Section Results.

Context (rt : Runtime) (fetch : Request.t -> Thrown + Response.t).

Lemma error_item_reports m b :
  reports_failure {| ContentItem.type := "text";
                     ContentItem.text := "**Error**\n\n" +:+ m;
                     ContentItem.isError := Some b |}
  <-> b = true.
Proof.
  unfold reports_failure; simpl. split.
  - intros (_ & [= ->] & _). reflexivity.
  - intros ->. repeat split. by exists m.
Qed.

Lemma value_item_shows heading value :
  shows_value rt {| ContentItem.type := "text";
                    ContentItem.text := json_block rt heading value;
                    ContentItem.isError := None |}.
Proof. unfold shows_value; simpl. repeat split. by exists heading, value. Qed.

Ltac failure_item :=
  match goal with
  | |- reports_failure {| ContentItem.text := "**Error**\n\n" +:+ ?m |} =>
      by apply (proj2 (error_item_reports m true))
  | |- reports_failure {| ContentItem.text := ?t |} =>
      unfold reports_failure; simpl; repeat split; eexists; reflexivity
  end.

Ltac answer_by_request :=
  rewrite guarded_run, makeRequest_run;
  match goal with
  | |- context [outcome_of rt (fetch ?req)] =>
      exists req; destruct (outcome_of rt (fetch req)) as [e | v];
      eexists; (split; [reflexivity |]);
      [failure_item | left; apply value_item_shows]
  end.

Lemma listBases_answers this a :
  answers rt fetch true (listBases_handler rt fetch this a).
Proof. intros sent. unfold listBases_handler, listBases. answer_by_request. Qed.

Lemma listTables_answers this a :
  answers rt fetch true (listTables_handler rt fetch this a).
Proof. intros sent. unfold listTables_handler, getBaseSchema. answer_by_request. Qed.

Lemma listRecords_answers this a :
  answers rt fetch true (listRecords_handler rt fetch this a).
Proof. intros sent. unfold listRecords_handler, listRecords. answer_by_request. Qed.

Lemma getRecord_answers this a :
  answers rt fetch true (getRecord_handler rt fetch this a).
Proof. intros sent. unfold getRecord_handler, getRecord. answer_by_request. Qed.

Lemma searchRecords_answers this a :
  answers rt fetch true (searchRecords_handler rt fetch this a).
Proof. intros sent. unfold searchRecords_handler, listRecords. answer_by_request. Qed.

Lemma createRecord_answers this a :
  answers rt fetch true (createRecord_handler rt fetch this a).
Proof. intros sent. unfold createRecord_handler, createRecord. answer_by_request. Qed.

Lemma updateRecords_answers this a :
  answers rt fetch true (updateRecords_handler rt fetch this a).
Proof. intros sent. unfold updateRecords_handler, updateRecords. answer_by_request. Qed.

Lemma deleteRecords_answers this a :
  answers rt fetch true (deleteRecords_handler rt fetch this a).
Proof. intros sent. unfold deleteRecords_handler, deleteRecords. answer_by_request. Qed.

(** [describeTable] has two more ways to fail after the provider has
    answered: the property access can throw, and the table can be
    missing. *)
Lemma describeTable_answers this a :
  answers rt fetch false (describeTable_handler rt fetch this a).
Proof.
  intros sent.
  unfold describeTable_handler, getBaseSchema, try_catch, bind.
  rewrite makeRequest_run.
  match goal with
  | |- context [outcome_of rt (fetch ?req)] =>
      exists req; destruct (outcome_of rt (fetch req)) as [e | baseSchema]
  end.
  - eexists. split; [reflexivity |]. failure_item.
  - unfold lift, ret.
    destruct (tables_of baseSchema) as [e | tables].
    { eexists. split; [reflexivity |]. right. split; [reflexivity |]. failure_item. }
    destruct (find_table (DescribeTable.tableId a) tables) as [e | [table |]].
    + eexists. split; [reflexivity |]. right. split; [reflexivity |]. failure_item.
    + eexists. split; [reflexivity |]. left. apply value_item_shows.
    + eexists. split; [reflexivity |]. right. split; [reflexivity |]. failure_item.
Qed.

Variable ALLOWED_WRITE_USERNAMES : gset string.

(** Every callback in a session's registry is one of the nine above. *)
Lemma registered_answers env props operationName (t : RegisteredTool) :
  lookup_tool operationName
    (registeredTools (server (session rt fetch ALLOWED_WRITE_USERNAMES env props)))
  = Some t ->
  forall args : Args t,
    answers rt fetch (negb (String.eqb operationName "describeTable")) (callback t args).
Proof.
  unfold session, init, registerAirtableTools.
  destruct (bool_decide (login props ∈ ALLOWED_WRITE_USERNAMES)); simpl.
  all: repeat match goal with
         | |- context [String.eqb ?x ?n] =>
             is_var x; destruct (String.eqb_spec x n) as [-> |]; simpl
         end.
  all: intros H; try discriminate H.
  all: injection H as <-; simpl; intros args.
  all: auto using listBases_answers, listTables_answers, describeTable_answers,
         listRecords_answers, getRecord_answers, searchRecords_answers,
         createRecord_answers, updateRecords_answers, deleteRecords_answers.
Qed.

(** C4. What a registered callback hands to the transport, for any
    arguments and any provider behaviour: it returns normally, and the
    result is the object [{ content: [item] }] with one text item and no
    [isError] of its own, also when the command failed.  A failed provider
    request is told only inside the item, which carries [isError: true]
    and, in the same [text] field a success uses for its value, a message
    headed [**Error**]; after a successful provider request the item
    carries no flag and its text is a heading followed by the rendering of
    a value (describeTable apart, which can still fail on the answer).
    There is no [ok], no [payload] and no [errorMessage], and the key the
    protocol reads to tell failure from success is never written. *)
Theorem failure_is_flagged_inside_the_item env props operationName (t : RegisteredTool)
    (args : Args t) (sent : list Request.t) :
  lookup_tool operationName
    (registeredTools (server (session rt fetch ALLOWED_WRITE_USERNAMES env props)))
  = Some t ->
  exists req item,
    callback t args sent
    = (inr {| ToolResult.content := [item]; ToolResult.isError := None |}, sent ++ [req])
    /\ ContentItem.type item = "text"
    /\ (forall err, outcome_of rt (fetch req) = inl err ->
        ContentItem.isError item = Some true
        /\ exists m, ContentItem.text item = "**Error**\n\n" +:+ m)
    /\ (forall v, outcome_of rt (fetch req) = inr v ->
        operationName <> "describeTable" ->
        ContentItem.isError item = None
        /\ exists heading value,
             ContentItem.text item
             = heading +:+ "\n\n```json\n" +:+ JSON_stringify rt value 2 +:+ "\n```").
Proof.
  intros Hreg.
  destruct (registered_answers _ _ _ _ Hreg args sent) as (req & item & Hrun & Hcase).
  exists req, item. split; [exact Hrun |].
  assert (Htype : ContentItem.type item = "text").
  { destruct (outcome_of rt (fetch req)); [exact (proj1 Hcase) |].
    destruct Hcase as [H | [_ H]]; exact (proj1 H). }
  split; [exact Htype |]. split.
  - intros err Herr. rewrite Herr in Hcase. exact (proj2 Hcase).
  - intros v Hv Hname. rewrite Hv in Hcase.
    destruct Hcase as [H | [Hnot _]]; [exact (proj2 H) |].
    apply negb_false_iff, String.eqb_eq in Hnot. contradiction.
Qed.

End Results.

(* ================================================================= *)
(** ** Where the issues of a schema sit *)

Create HintDb zod_paths.

Lemma below_here (p : list PathSeg) c m :
  exists suffix, path {| code := c; path := p; message := m |} = p ++ suffix.
Proof. exists []. simpl. by rewrite app_nil_r. Qed.

Lemma INVALID_below {A} c p i :
  In i (issues (@INVALID A c p)) -> exists suffix, path i = p ++ suffix.
Proof. intros [<- | []]. apply below_here. Qed.

Lemma z_string_below : below z_string.
Proof.
  intros p input i. unfold z_string.
  destruct input as [[] |]; simpl; try tauto; intros [<- | []]; apply below_here.
Qed.

Lemma z_number_below : below z_number.
Proof.
  intros p input i. unfold z_number.
  destruct input as [[] |]; simpl; try tauto; intros [<- | []]; apply below_here.
Qed.

Lemma z_record_any_below : below z_record_any.
Proof.
  intros p input i. unfold z_record_any.
  destruct input as [[] |]; simpl; try tauto; intros [<- | []]; apply below_here.
Qed.

Lemma z_enum_below {A} (values : list (string * A)) : below (z_enum values).
Proof.
  intros p input i. unfold z_enum.
  destruct input as [[] |]; simpl; try (intros [<- | []]; apply below_here).
  destruct (enum_find s values); simpl; [tauto | intros [<- | []]; apply below_here].
Qed.

Lemma check_below {A} holds c m (t : ZodType A) : below t -> below (check holds c m t).
Proof.
  intros Ht p input i. unfold check.
  destruct (value (t p input)) as [a |]; [| apply Ht].
  destruct (holds a); [apply Ht |]. simpl.
  rewrite in_app_iff. intros [Hin | [<- | []]]; [eapply Ht, Hin | apply below_here].
Qed.

Lemma optional_below {A} (t : ZodType A) : below t -> below (optional t).
Proof.
  intros Ht p input i. unfold optional.
  destruct input as [v |]; simpl; [apply Ht | tauto].
Qed.

Lemma prop_below {A} k (t : ZodType A) p members i :
  below t ->
  In i (issues (prop k t p members)) -> exists suffix, path i = p ++ PKey k :: suffix.
Proof.
  intros Ht Hin. destruct (Ht _ _ _ Hin) as [suffix ->].
  exists suffix. by rewrite <- app_assoc.
Qed.

Lemma shape_ap_issues {A B} (f : Shape (A -> B)) (x : Shape A) p members i :
  In i (issues ((f <&> x) p members))
  <-> In i (issues (f p members)) \/ In i (issues (x p members)).
Proof. unfold shape_ap, ap. simpl. apply in_app_iff. Qed.

(** An issue of an element sits strictly below the array. *)
Lemma parse_items_below {A} (item : ZodType A) p n xs i :
  below item ->
  In i (issues (parse_items item p n xs)) ->
  exists k suffix, path i = p ++ PIndex k :: suffix.
Proof.
  intros Hitem. revert n.
  induction xs as [| x rest IH]; intros n; simpl; [tauto |].
  rewrite in_app_iff. intros [Hin | Hin].
  - destruct (Hitem _ _ _ Hin) as [suffix ->].
    exists n, suffix. by rewrite <- app_assoc.
  - eapply IH, Hin.
Qed.

Lemma z_array_below {A} (item : ZodType A) : below item -> below (z_array item).
Proof.
  intros Hitem p input i. unfold z_array.
  destruct input as [[] |]; simpl; try (intros [<- | []]; apply below_here).
  intros Hin. destruct (parse_items_below _ _ _ _ _ Hitem Hin) as (k & suffix & ->).
  eauto.
Qed.

Lemma array_check_below {A} holds c m (t : ZodType (list A)) :
  below t -> below (array_check holds c m t).
Proof.
  intros Ht p input i. unfold array_check.
  destruct input as [[] |]; try apply Ht.
  destruct (holds _); [apply Ht |]. simpl.
  intros [<- | Hin]; [apply below_here | eapply Ht, Hin].
Qed.

Lemma z_object_below {A} (shape : Shape A) :
  shape_below shape -> below (z_object shape).
Proof.
  intros Hs p input i. unfold z_object.
  destruct input as [[] |]; simpl; try (intros [<- | []]; apply below_here).
  apply Hs.
Qed.

Lemma shape_of_below {A} (a : A) : shape_below (shape_of a).
Proof. intros p members i []. Qed.

Lemma prop_shape_below {A} k (t : ZodType A) : below t -> shape_below (prop k t).
Proof.
  intros Ht p members i Hin.
  destruct (prop_below _ _ _ _ _ Ht Hin) as [suffix ->]. eauto.
Qed.

Lemma shape_ap_below {A B} (f : Shape (A -> B)) (x : Shape A) :
  shape_below f -> shape_below x -> shape_below (f <&> x).
Proof.
  intros Hf Hx p members i Hin.
  apply shape_ap_issues in Hin as [Hin | Hin]; [eapply Hf, Hin | eapply Hx, Hin].
Qed.

#[local] Hint Resolve z_string_below z_number_below z_record_any_below z_enum_below
  check_below optional_below z_array_below array_check_below z_object_below
  shape_of_below prop_shape_below shape_ap_below : zod_paths.

Lemma RecordUpdateSchema_below : below RecordUpdateSchema.
Proof. unfold RecordUpdateSchema. auto 10 with zod_paths. Qed.

Lemma SortItemSchema_below : below SortItemSchema.
Proof. unfold SortItemSchema. auto 10 with zod_paths. Qed.

Lemma maxRecords_type_below :
  below (optional (number_max 100%Q (number_positive (number_int z_number)))).
Proof. unfold number_max, number_positive, number_int. auto 10 with zod_paths. Qed.

Lemma string_min_below n m : below (string_min n m z_string).
Proof. unfold string_min. auto with zod_paths. Qed.

#[local] Hint Resolve RecordUpdateSchema_below SortItemSchema_below maxRecords_type_below
  string_min_below : zod_paths.

(** An issue under another key is not an issue at this key. *)
Lemma other_key {A} k k' (t : ZodType A) members i :
  below t -> k <> k' ->
  In i (issues (prop k t [] members)) -> path i <> [PKey k'].
Proof.
  intros Ht Hk Hin Hpath.
  destruct (prop_below _ _ _ _ _ Ht Hin) as [suffix Hi].
  rewrite Hi in Hpath. simpl in Hpath. congruence.
Qed.

(** Within bounds, the checks on the array add nothing to the issues of
    its elements, and those sit below an index. *)
Lemma bounded_array_issues {A} (item : ZodType A) m1 m2 p xs i :
  below item ->
  (1 <= length xs <= 10)%nat ->
  In i (issues (array_max 10 m2 (array_min 1 m1 (z_array item)) p (Some (JArray xs)))) ->
  path i <> p.
Proof.
  intros Hitem [Hlo Hhi]. unfold array_max, array_min, array_check.
  destruct (Nat.leb_spec (length xs) 10) as [_ | ?]; [| lia].
  destruct (Nat.leb_spec 1 (length xs)) as [_ | ?]; [| lia].
  simpl. intros Hin Hpath.
  destruct (parse_items_below _ _ _ _ _ Hitem Hin) as (k & suffix & Hi).
  rewrite Hi in Hpath.
  apply (f_equal (@length PathSeg)) in Hpath.
  rewrite length_app in Hpath. simpl in Hpath. lia.
Qed.

(** Out of bounds, the array check reports its issue with the message of
    the source. *)
Lemma unbounded_array_issue {A} (item : ZodType A) m1 m2 p xs :
  (length xs = 0 \/ 10 < length xs)%nat ->
  In {| code := if (10 <? length xs)%nat then too_big else too_small;
        path := p;
        message := Some (if (10 <? length xs)%nat then m2 else m1) |}
     (issues (array_max 10 m2 (array_min 1 m1 (z_array item)) p (Some (JArray xs)))).
Proof.
  intros Hout. unfold array_max, array_min, array_check.
  destruct (Nat.ltb_spec 10 (length xs)) as [Hbig | Hsmall].
  - destruct (Nat.leb_spec (length xs) 10) as [? | _]; [lia |]. simpl. by left.
  - destruct (Nat.leb_spec (length xs) 10) as [_ | ?]; [| lia].
    destruct (Nat.leb_spec 1 (length xs)) as [? | _]; [lia |]. simpl. by left.
Qed.

(* ================================================================= *)
(** ** What the schemas check *)

Section Validation.

Context (rt : Runtime) (fetch : Request.t -> Thrown + Response.t).

(** A schema that raises an issue does not accept. *)
Lemma issue_refuses {A} (schema : ZodType A) raw :
  issues (schema [] raw) <> [] -> accepts schema raw = false.
Proof.
  intros Hne. unfold accepts, safeParse.
  destruct (issues (schema [] raw)); [contradiction | reflexivity].
Qed.

Lemma batch_issue_refuses (b : BatchTool) raw :
  batch_issues b raw <> [] -> batch_accepts b raw = false.
Proof. destruct b; apply issue_refuses. Qed.

Lemma listing_issue_refuses (l : ListingTool) raw :
  listing_issues l raw <> [] -> listing_accepts l raw = false.
Proof. destruct l; apply issue_refuses. Qed.

Lemma batch_issue_out_of_bounds (b : BatchTool) raw n :
  batch_length b raw = Some n ->
  (n = 0 \/ 10 < n)%nat ->
  In (bound_issue b (10 <? n)%nat) (batch_issues b raw).
Proof.
  unfold batch_length, raw_member, batch_issues.
  destruct raw as [[| | | | | members] |]; try discriminate.
  destruct b; unfold batch_key;
    (destruct (member _ members) as [[| | | | entries |] |] eqn:Hm; try discriminate);
    intros [= <-] Hout.
  - unfold UpdateRecordsSchema, z_object.
    apply shape_ap_issues. right. unfold prop. rewrite Hm.
    apply (unbounded_array_issue RecordUpdateSchema). exact Hout.
  - unfold DeleteRecordsSchema, z_object.
    apply shape_ap_issues. right. unfold prop. rewrite Hm.
    apply (unbounded_array_issue z_string). exact Hout.
Qed.

Lemma batch_issue_in_bounds (b : BatchTool) raw n i :
  batch_length b raw = Some n ->
  (1 <= n <= 10)%nat ->
  In i (batch_issues b raw) -> path i <> [PKey (batch_key b)].
Proof.
  unfold batch_length, raw_member, batch_issues.
  destruct raw as [[| | | | | members] |]; try discriminate.
  destruct b; unfold batch_key;
    (destruct (member _ members) as [[| | | | entries |] |] eqn:Hm; try discriminate);
    intros [= <-] Hin.
  - unfold UpdateRecordsSchema, z_object.
    rewrite !shape_ap_issues. intros [[[[] | H] | H] | H].
    + eapply other_key, H; [auto with zod_paths | discriminate].
    + eapply other_key, H; [auto with zod_paths | discriminate].
    + unfold prop in H. rewrite Hm in H.
      eapply bounded_array_issues, H; [auto with zod_paths | exact Hin].
  - unfold DeleteRecordsSchema, z_object.
    rewrite !shape_ap_issues. intros [[[[] | H] | H] | H].
    + eapply other_key, H; [auto with zod_paths | discriminate].
    + eapply other_key, H; [auto with zod_paths | discriminate].
    + unfold prop in H. rewrite Hm in H.
      eapply bounded_array_issues, H; [auto with zod_paths | exact Hin].
Qed.

(** The batch callbacks do not look at the size of the batch: whatever
    its length, the request goes out. *)
Lemma batch_handler_sends this (c : BatchCall) sent :
  (batch_handler rt fetch this c sent).2 = sent ++ [batch_request rt this c].
Proof.
  pose proof (batch_adapter_run rt fetch this c sent) as Hrun.
  destruct c as [a | a]; simpl in *.
  - unfold updateRecords_handler. rewrite guarded_run, Hrun.
    by destruct (outcome_of _ _).
  - unfold deleteRecords_handler. rewrite guarded_run, Hrun.
    by destruct (outcome_of _ _).
Qed.

(** C2. The size of a batch is checked by the schemas and by nothing
    else.  When the batch in the raw arguments of updateRecords or
    deleteRecords has no entry or more than ten, the schema of the
    operation raises the size issue, with the message of the source, and
    does not accept the arguments; when it has one to ten entries the
    schema raises no issue on the batch itself.  The callback and the
    adapter never look at the size: run on a batch of any length they
    send the request.  So a batch of the wrong size is kept from the
    provider only where the schema is applied before the callback runs. *)
Theorem batch_size_checked this (b : BatchTool) raw n :
  batch_length b raw = Some n ->
  ((n = 0 \/ 10 < n)%nat ->
   In (bound_issue b (10 <? n)%nat) (batch_issues b raw)
   /\ batch_accepts b raw = false)
  /\ ((1 <= n <= 10)%nat ->
      forall i, In i (batch_issues b raw) -> path i <> [PKey (batch_key b)])
  /\ (forall (c : BatchCall) sent,
        (batch_handler rt fetch this c sent).2 = sent ++ [batch_request rt this c]).
Proof.
  intros Hlen. split; [| split].
  - intros Hout.
    pose proof (batch_issue_out_of_bounds b raw n Hlen Hout) as Hissue.
    split; [exact Hissue |].
    apply batch_issue_refuses.
    intros Hnil. rewrite Hnil in Hissue. destruct Hissue.
  - intros Hin i. apply batch_issue_in_bounds with (n := n); assumption.
  - apply batch_handler_sends.
Qed.

(** The issues of [z.number().int().positive().max(100).optional()] on a
    number: one per failed check, in the order of the checks. *)
Lemma maxRecords_issues p n :
  issues (optional (number_max 100%Q (number_positive (number_int z_number)))
            p (Some (JNumber n)))
  = (if Number_isInteger n then []
     else [{| code := invalid_type; path := p; message := None |}])
    ++ (if number_gt n 0%Q then []
        else [{| code := too_small; path := p; message := None |}])
    ++ (if number_le n 100%Q then []
        else [{| code := too_big; path := p; message := None |}]).
Proof.
  unfold optional, number_max, number_positive, number_int, check, z_number, ap.
  simpl.
  destruct (Number_isInteger n); simpl;
    destruct (number_gt n 0%Q); simpl;
    destruct (number_le n 100%Q); reflexivity.
Qed.

Lemma out_of_range_raises p n :
  (100 < n)%Q \/ (n <= 0)%Q \/ Number_isInteger n = false ->
  issues (optional (number_max 100%Q (number_positive (number_int z_number)))
            p (Some (JNumber n))) <> [].
Proof.
  intros Hout. rewrite maxRecords_issues.
  destruct Hout as [Hbig | [Hsmall | Hfrac]].
  - assert (number_le n 100%Q = false) as ->.
    { unfold number_le. apply not_true_is_false. rewrite Qle_bool_iff.
      apply Qlt_not_le, Hbig. }
    destruct (Number_isInteger n), (number_gt n 0%Q); discriminate.
  - assert (number_gt n 0%Q = false) as ->.
    { unfold number_gt. apply negb_false_iff. apply Qle_bool_iff, Hsmall. }
    destruct (Number_isInteger n); discriminate.
  - rewrite Hfrac. discriminate.
Qed.

Lemma out_of_range_issue p n :
  (100 < n)%Q \/ (n <= 0)%Q \/ Number_isInteger n = false ->
  exists i,
    In i (issues (optional (number_max 100%Q (number_positive (number_int z_number)))
                    p (Some (JNumber n))))
    /\ path i = p.
Proof.
  intros Hout. pose proof (out_of_range_raises p n Hout) as Hne.
  rewrite maxRecords_issues in *.
  destruct (Number_isInteger n), (number_gt n 0%Q), (number_le n 100%Q);
    try contradiction; eexists; (split; [left; reflexivity | reflexivity]).
Qed.

Lemma in_range_raises_nothing p n :
  Number_isInteger n = true -> (1 <= n)%Q -> (n <= 100)%Q ->
  issues (optional (number_max 100%Q (number_positive (number_int z_number)))
            p (Some (JNumber n))) = [].
Proof.
  intros Hint Hlo Hhi. rewrite maxRecords_issues, Hint.
  assert (number_gt n 0%Q = true) as ->.
  { unfold number_gt. apply negb_true_iff, not_true_is_false.
    rewrite Qle_bool_iff. apply Qlt_not_le.
    apply Qlt_le_trans with (y := 1%Q); [reflexivity | exact Hlo]. }
  assert (number_le n 100%Q = true) as ->.
  { unfold number_le. apply Qle_bool_iff, Hhi. }
  reflexivity.
Qed.

Lemma listing_issue_out_of_range (l : ListingTool) raw n :
  raw_member "maxRecords" raw = Some (JNumber n) ->
  (100 < n)%Q \/ (n <= 0)%Q \/ Number_isInteger n = false ->
  listing_issues l raw <> [].
Proof.
  unfold raw_member, listing_issues.
  destruct raw as [[| | | | | members] |]; try discriminate.
  intros Hm Hout.
  pose proof (out_of_range_raises [PKey "maxRecords"] n Hout) as Hne.
  destruct (issues _) as [| i rest] eqn:Hi in Hne; [contradiction |].
  assert (Hin : In i (issues (prop "maxRecords"
                   (optional (number_max 100%Q (number_positive (number_int z_number))))
                   [] members))).
  { unfold prop. rewrite Hm. simpl app. rewrite Hi. by left. }
  intros Hnil.
  destruct l.
  - unfold ListRecordsSchema, z_object in Hnil.
    assert (Hall : In i []); [| destruct Hall].
    rewrite <- Hnil. rewrite !shape_ap_issues. tauto.
  - unfold SearchRecordsSchema, z_object in Hnil.
    assert (Hall : In i []); [| destruct Hall].
    rewrite <- Hnil. rewrite !shape_ap_issues. tauto.
Qed.

Lemma listing_issue_in_range (l : ListingTool) raw i :
  raw_member "maxRecords" raw = None
  \/ (exists n, raw_member "maxRecords" raw = Some (JNumber n)
                /\ Number_isInteger n = true /\ (1 <= n)%Q /\ (n <= 100)%Q) ->
  In i (listing_issues l raw) -> path i <> [PKey "maxRecords"].
Proof.
  intros Hok.
  assert (Hnone : forall members, raw = Some (JObject members) ->
            issues (prop "maxRecords"
              (optional (number_max 100%Q (number_positive (number_int z_number))))
              [] members) = []).
  { intros members ->. unfold prop. simpl in Hok.
    destruct Hok as [-> | (n & -> & Hint & Hlo & Hhi)]; [reflexivity |].
    by apply in_range_raises_nothing. }
  unfold listing_issues.
  destruct raw as [[| | | | | members] |];
    try (destruct l; simpl; intros [<- | []]; discriminate).
  specialize (Hnone members eq_refl).
  destruct l.
  - unfold ListRecordsSchema, z_object. rewrite !shape_ap_issues, Hnone.
    intros [[[[[[[] | H] | H] | H] | []] | H] | H];
      (eapply other_key, H; [auto with zod_paths | discriminate]).
  - unfold SearchRecordsSchema, z_object. rewrite !shape_ap_issues, Hnone.
    intros [[[[[] | H] | H] | H] | []];
      (eapply other_key, H; [auto with zod_paths | discriminate]).
Qed.

Lemma listing_issue_at_maxRecords (l : ListingTool) raw n :
  raw_member "maxRecords" raw = Some (JNumber n) ->
  (100 < n)%Q \/ (n <= 0)%Q \/ Number_isInteger n = false ->
  exists i, In i (listing_issues l raw) /\ path i = [PKey "maxRecords"].
Proof.
  unfold raw_member, listing_issues.
  destruct raw as [[| | | | | members] |]; try discriminate.
  intros Hm Hout.
  destruct (out_of_range_issue [PKey "maxRecords"] n Hout) as (i & Hi & Hpath).
  assert (Hin : In i (issues (prop "maxRecords"
                   (optional (number_max 100%Q (number_positive (number_int z_number))))
                   [] members))).
  { unfold prop. rewrite Hm. exact Hi. }
  exists i. split; [| exact Hpath].
  destruct l.
  - unfold ListRecordsSchema, z_object. rewrite !shape_ap_issues. tauto.
  - unfold SearchRecordsSchema, z_object. rewrite !shape_ap_issues. tauto.
Qed.

(** C7. The bound on [maxRecords] is checked by the schemas and by nothing
    else.  For listRecords and searchRecords a [maxRecords] that is above
    100, zero, negative or not an integer raises an issue at [maxRecords]
    and the schema does not accept the arguments; an integer [maxRecords]
    from 1 to 100, or none at all, raises no issue at [maxRecords].  The
    adapter never looks at the bound: any limit other than zero that
    reaches it is put into the request.  So a limit out of range is kept
    from the provider only where the schema is applied before the
    callback runs. *)
Theorem maxRecords_checked (l : ListingTool) raw :
  (forall n,
      raw_member "maxRecords" raw = Some (JNumber n) ->
      (100 < n)%Q \/ (n <= 0)%Q \/ Number_isInteger n = false ->
      listing_accepts l raw = false
      /\ exists i, In i (listing_issues l raw) /\ path i = [PKey "maxRecords"])
  /\ (raw_member "maxRecords" raw = None
      \/ (exists n, raw_member "maxRecords" raw = Some (JNumber n)
                    /\ Number_isInteger n = true /\ (1 <= n)%Q /\ (n <= 100)%Q) ->
      forall i, In i (listing_issues l raw) -> path i <> [PKey "maxRecords"])
  /\ (forall (options : ListOptions.t) n,
        ListOptions.maxRecords options = Some n ->
        number_truthy n = true ->
        In ("maxRecords", Number_toString rt n) (listRecords_params rt options)).
Proof.
  split; [| split].
  - intros n Hm Hout. split.
    + apply listing_issue_refuses. eapply listing_issue_out_of_range; eassumption.
    + eapply listing_issue_at_maxRecords; eassumption.
  - intros Hok i. apply listing_issue_in_range. exact Hok.
  - apply limit_in_params.
Qed.

End Validation.

(* ================================================================= *)
(** ** Batch outcomes and provider errors *)

Section Provider.

Context (rt : Runtime) (fetch : Request.t -> Thrown + Response.t).

Lemma batch_handler_run this c sent :
  batch_handler rt fetch this c sent
  = match batch_adapter rt fetch this c sent with
    | (inr result, sent') =>
        (inr (text_result (json_block rt (batch_heading c) result)), sent')
    | (inl error, sent') =>
        (inr (error_result
                (match c with
                 | UpdateCall _ => "**Error**\n\nFailed to update records: "
                 | DeleteCall _ => "**Error**\n\nFailed to delete records: "
                 end +:+ error_text error)), sent')
    end.
Proof.
  destruct c as [a | a]; simpl.
  - unfold updateRecords_handler. apply guarded_run.
  - unfold deleteRecords_handler. apply guarded_run.
Qed.

(** C3. When the provider answers an updateRecords or deleteRecords
    request with a success response whose body parses to [v], the adapter
    returns [v] itself, and the callback returns the object
    [{ content: [{ type: "text", text }] }], without any error flag, whose
    text is the heading, a blank line and a fenced block holding
    [JSON.stringify(v, null, 2)]: the per-entry outcomes inside [v] are
    neither altered, dropped, reordered nor replaced. *)
Theorem batch_outcomes_pass_through this (c : BatchCall) sent response (v : JSON) :
  fetch (batch_request rt this c) = inr response ->
  Response.ok response = true ->
  Response.json response = inr v ->
  batch_adapter rt fetch this c sent = (inr v, sent ++ [batch_request rt this c])
  /\ batch_handler rt fetch this c sent
     = (inr {| ToolResult.content :=
                 [{| ContentItem.type := "text";
                     ContentItem.text :=
                       batch_heading c +:+ "\n\n```json\n"
                       +:+ JSON_stringify rt v 2 +:+ "\n```";
                     ContentItem.isError := None |}];
               ToolResult.isError := None |},
        sent ++ [batch_request rt this c]).
Proof.
  intros Hfetch Hok Hjson.
  assert (Hrun : batch_adapter rt fetch this c sent
                 = (inr v, sent ++ [batch_request rt this c])).
  { rewrite batch_adapter_run, Hfetch. unfold outcome_of. by rewrite Hok, Hjson. }
  split; [exact Hrun |].
  rewrite batch_handler_run, Hrun. reflexivity.
Qed.

Lemma string_length_app (a b : string) :
  String.length (a +:+ b) = (String.length a + String.length b)%nat.
Proof. induction a as [| c a IH]; simpl; [reflexivity | by rewrite IH]. Qed.

(** C6. What the code does with a non-success response: the whole body,
    as [response.text()] gives it, is the tail of the thrown message, so
    the message is at least as long as the body; and a callback's [catch]
    clause puts that message, whole, behind its own prefix.  Nothing is
    cut or cleaned on the way. *)
Theorem upstream_body_embedded_whole this endpoint options sent response (body : string) :
  fetch (request_of this endpoint options) = inr response ->
  Response.ok response = false ->
  Response.text response = inr body ->
  exists message,
    message = "Airtable API error: "
              +:+ Number_toString rt (Response.status response) +:+ " "
              +:+ Response.statusText response +:+ " - " +:+ body
    /\ (makeRequest rt fetch this endpoint options sent).1 = inl (ErrorObj message)
    /\ (String.length body <= String.length message)%nat
    /\ forall (done : JSON -> ToolResult.t) (prefix : string),
         (try_catch
            (result <- makeRequest rt fetch this endpoint options ;; ret (done result))
            (fun error => ret (error_result (prefix +:+ error_text error))) sent).1
         = inr (error_result (prefix +:+ message)).
Proof.
  intros Hfetch Hok Htext. eexists. split; [reflexivity |].
  assert (Hout : outcome_of rt (fetch (request_of this endpoint options))
                 = inl (ErrorObj ("Airtable API error: "
                   +:+ Number_toString rt (Response.status response) +:+ " "
                   +:+ Response.statusText response +:+ " - " +:+ body))).
  { rewrite Hfetch. unfold outcome_of. by rewrite Hok, Htext. }
  split; [| split].
  - rewrite makeRequest_run. simpl. exact Hout.
  - rewrite !string_length_app. lia.
  - intros done prefix. rewrite guarded_run, makeRequest_run, Hout. reflexivity.
Qed.

End Provider.

(* ================================================================= *)
(** ** Record identifiers inside a batch *)

(** Any strings, the empty one included, parse as the elements of
    [z.array(z.string())]. *)
Lemma parse_strings p n (ids : list string) :
  parse_items z_string p n (map JString ids) = OK ids.
Proof.
  revert n. induction ids as [| id rest IH]; intros n; simpl; [reflexivity |].
  rewrite IH. reflexivity.
Qed.

Lemma parse_updates p n (entries : list RecordUpdate.t) :
  parse_items RecordUpdateSchema p n (map update_json entries) = OK entries.
Proof.
  revert n. induction entries as [| [id fields] rest IH]; intros n; simpl; [reflexivity |].
  rewrite IH. reflexivity.
Qed.

Lemma non_empty_passes (s : string) msg p :
  s <> "" -> string_min 1 msg z_string p (Some (JString s)) = OK s.
Proof. destruct s; [congruence | reflexivity]. Qed.

(** deleteRecords accepts every batch of one to ten strings. *)
Lemma DeleteRecordsSchema_accepts (baseId tableId : string) (recordIds : list string) :
  baseId <> "" -> tableId <> "" -> (1 <= length recordIds <= 10)%nat ->
  safeParse DeleteRecordsSchema
    (Some (JObject [("baseId", JString baseId); ("tableId", JString tableId);
                    ("recordIds", JArray (map JString recordIds))]))
  = inr {| DeleteRecords.baseId := baseId; DeleteRecords.tableId := tableId;
           DeleteRecords.recordIds := recordIds |}.
Proof.
  intros Hb Ht [Hlo Hhi].
  unfold safeParse, DeleteRecordsSchema, z_object, shape_ap, shape_of, prop,
    array_max, array_min, array_check, z_array.
  simpl member. rewrite !non_empty_passes by assumption.
  rewrite length_map, parse_strings.
  destruct (Nat.leb_spec (length recordIds) 10) as [_ | ?]; [| lia].
  destruct (Nat.leb_spec 1 (length recordIds)) as [_ | ?]; [| lia].
  reflexivity.
Qed.

(** updateRecords accepts every batch of one to ten entries, whatever
    their ids. *)
Lemma UpdateRecordsSchema_accepts (baseId tableId : string)
    (records : list RecordUpdate.t) :
  baseId <> "" -> tableId <> "" -> (1 <= length records <= 10)%nat ->
  safeParse UpdateRecordsSchema
    (Some (JObject [("baseId", JString baseId); ("tableId", JString tableId);
                    ("records", JArray (map update_json records))]))
  = inr {| UpdateRecords.baseId := baseId; UpdateRecords.tableId := tableId;
           UpdateRecords.records := records |}.
Proof.
  intros Hb Ht [Hlo Hhi].
  unfold safeParse, UpdateRecordsSchema, z_object, shape_ap, shape_of, prop,
    array_max, array_min, array_check, z_array.
  simpl member. rewrite !non_empty_passes by assumption.
  rewrite length_map, parse_updates.
  destruct (Nat.leb_spec (length records) 10) as [_ | ?]; [| lia].
  destruct (Nat.leb_spec 1 (length records)) as [_ | ?]; [| lia].
  reflexivity.
Qed.

(** What the schemas do enforce: an empty base or table id is refused by
    every operation that takes one. *)
Lemma empty_id_raises k msg members :
  member k members = Some (JString "") ->
  In {| code := too_small; path := [PKey k]; message := Some msg |}
     (issues (prop k (string_min 1 msg z_string) [] members)).
Proof. intros Hm. unfold prop. rewrite Hm. simpl. by left. Qed.

Lemma baseId_required (op : Operation) members :
  op <> op_listBases ->
  member "baseId" members = Some (JString "") ->
  In {| code := too_small; path := [PKey "baseId"]; message := Some "Base ID is required" |}
     (schema_issues op (Some (JObject members))).
Proof.
  intros Hop Hm.
  pose proof (empty_id_raises "baseId" "Base ID is required" members Hm) as Hin.
  destruct op; try congruence; unfold schema_issues;
    unfold ListTablesSchema, DescribeTableSchema, ListRecordsSchema, GetRecordSchema,
      SearchRecordsSchema, CreateRecordSchema, UpdateRecordsSchema, DeleteRecordsSchema,
      z_object;
    rewrite !shape_ap_issues; tauto.
Qed.

Lemma tableId_required (op : Operation) members :
  op <> op_listBases -> op <> op_listTables ->
  member "tableId" members = Some (JString "") ->
  In {| code := too_small; path := [PKey "tableId"]; message := Some "Table ID is required" |}
     (schema_issues op (Some (JObject members))).
Proof.
  intros Hop Hop' Hm.
  pose proof (empty_id_raises "tableId" "Table ID is required" members Hm) as Hin.
  destruct op; try congruence; unfold schema_issues;
    unfold DescribeTableSchema, ListRecordsSchema, GetRecordSchema,
      SearchRecordsSchema, CreateRecordSchema, UpdateRecordsSchema, DeleteRecordsSchema,
      z_object;
    rewrite !shape_ap_issues; tauto.
Qed.

(** C5. The code on empty record ids.  getRecord refuses an empty
    [recordId] with "Record ID is required"; deleteRecords and
    updateRecords accept an empty record id inside the batch, and the
    deleteRecords command goes on to the provider with it. *)
Theorem empty_record_id_in_batch :
  safeParse GetRecordSchema
    (Some (JObject [("baseId", JString "app1"); ("tableId", JString "tbl1");
                    ("recordId", JString "")]))
  = inl [{| code := too_small; path := [PKey "recordId"];
            message := Some "Record ID is required" |}]
  /\ safeParse DeleteRecordsSchema
       (Some (JObject [("baseId", JString "app1"); ("tableId", JString "tbl1");
                       ("recordIds", JArray [JString ""])]))
     = inr {| DeleteRecords.baseId := "app1"; DeleteRecords.tableId := "tbl1";
              DeleteRecords.recordIds := [""] |}
  /\ safeParse UpdateRecordsSchema
       (Some (JObject [("baseId", JString "app1"); ("tableId", JString "tbl1");
                       ("records",
                        JArray [JObject [("id", JString ""); ("fields", JObject [])]])]))
     = inr {| UpdateRecords.baseId := "app1"; UpdateRecords.tableId := "tbl1";
              UpdateRecords.records :=
                [{| RecordUpdate.id := ""; RecordUpdate.fields := [] |}] |}
  /\ map Request.url
       (callTool
          (server (session sample_runtime (answer_with (success_response JNull))
                     only_bob sample_env bob))
          "deleteRecords"
          (Some (JObject [("baseId", JString "app1"); ("tableId", JString "tbl1");
                          ("recordIds", JArray [JString ""])]))
          []).2
     = ["https://api.airtable.com/v0/app1/tbl1?records%5B%5D="].
Proof. repeat split. Qed.

(* ================================================================= *)
(** ** Sorting and searching *)




Section Search.

Context (rt : Runtime) (fetch : Request.t -> Thrown + Response.t).

(** C10, as the code has it.  searchRecords and listRecords on the same
    base, table, formula and maxRecords (no view, no sort) make the same
    adapter call, hence send the same request and get the same value or
    error; each callback then wraps that outcome under its own heading
    ("Search Results" against "Records from <table>") or its own error
    prefix ("Failed to search records" against "Failed to list
    records"). *)
Theorem search_is_list_under_another_heading this
    (baseId tableId filterByFormula : string) (maxRecords : option number)
    (sent : list Request.t) :
  let call :=
    listRecords rt fetch this baseId tableId
      {| ListOptions.view := None; ListOptions.maxRecords := maxRecords;
         ListOptions.sort := None;
         ListOptions.filterByFormula := Some filterByFormula |} in
  let search :=
    searchRecords_handler rt fetch this
      {| SearchRecords.baseId := baseId; SearchRecords.tableId := tableId;
         SearchRecords.filterByFormula := filterByFormula;
         SearchRecords.maxRecords := maxRecords |} in
  let list :=
    listRecords_handler rt fetch this
      {| ListRecords.baseId := baseId; ListRecords.tableId := tableId;
         ListRecords.view := None; ListRecords.maxRecords := maxRecords;
         ListRecords.sort := None;
         ListRecords.filterByFormula := Some filterByFormula |} in
  search sent
  = match call sent with
    | (inr result, sent') =>
        (inr (text_result (json_block rt "**Search Results**" result)), sent')
    | (inl error, sent') =>
        (inr (error_result ("**Error**\n\nFailed to search records: "
                            +:+ error_text error)), sent')
    end
  /\ list sent
     = match call sent with
       | (inr result, sent') =>
           (inr (text_result
                   (json_block rt ("**Records from " +:+ tableId +:+ "**") result)),
            sent')
       | (inl error, sent') =>
           (inr (error_result ("**Error**\n\nFailed to list records: "
                               +:+ error_text error)), sent')
       end
  /\ (search sent).2 = (call sent).2
  /\ (list sent).2 = (call sent).2.
Proof.
  intros call search list.
  assert (Hs : search sent
               = match call sent with
                 | (inr result, sent') =>
                     (inr (text_result (json_block rt "**Search Results**" result)), sent')
                 | (inl error, sent') =>
                     (inr (error_result ("**Error**\n\nFailed to search records: "
                                         +:+ error_text error)), sent')
                 end).
  { subst search call. unfold searchRecords_handler. simpl. apply guarded_run. }
  assert (Hl : list sent
               = match call sent with
                 | (inr result, sent') =>
                     (inr (text_result
                             (json_block rt ("**Records from " +:+ tableId +:+ "**")
                                result)), sent')
                 | (inl error, sent') =>
                     (inr (error_result ("**Error**\n\nFailed to list records: "
                                         +:+ error_text error)), sent')
                 end).
  { subst list call. unfold listRecords_handler. simpl. apply guarded_run. }
  repeat split; [exact Hs | exact Hl | |].
  - rewrite Hs. destruct (call sent) as [[e | v] sent']; reflexivity.
  - rewrite Hl. destruct (call sent) as [[e | v] sent']; reflexivity.
Qed.

End Search.

(** The claim of C10 fails as stated: for one and the same provider answer
    the two callbacks return different results, both on success and on
    failure. *)
Lemma search_and_list_results_differ :
  let this := new_AirtableService "key" in
  let search_args :=
    {| SearchRecords.baseId := "app1"; SearchRecords.tableId := "tbl1";
       SearchRecords.filterByFormula := "{Status}='Open'";
       SearchRecords.maxRecords := Some 5%Q |} in
  let list_args :=
    {| ListRecords.baseId := "app1"; ListRecords.tableId := "tbl1";
       ListRecords.view := None; ListRecords.maxRecords := Some 5%Q;
       ListRecords.sort := None;
       ListRecords.filterByFormula := Some "{Status}='Open'" |} in
  let found := answer_with (success_response (JArray [])) in
  let down := answer_with (failure_response 503%Q "Service Unavailable" "busy") in
  (searchRecords_handler sample_runtime found this search_args []).1
  = inr (text_result "**Search Results**\n\n```json\n[]\n```")
  /\ (listRecords_handler sample_runtime found this list_args []).1
     = inr (text_result "**Records from tbl1**\n\n```json\n[]\n```")
  /\ (searchRecords_handler sample_runtime found this search_args []).1
     <> (listRecords_handler sample_runtime found this list_args []).1
  /\ (searchRecords_handler sample_runtime down this search_args []).1
     <> (listRecords_handler sample_runtime down this list_args []).1.
Proof. repeat split; discriminate. Qed.

(* ================================================================= *)
(** ** The theorems at concrete inputs *)

(** alice, who is not allow-listed, sends createRecord: the name is not in
    her registry and nothing is sent. *)
Example createRecord_not_found_for_alice :
  callTool
    (server (session sample_runtime (answer_with (success_response JNull))
               only_bob sample_env alice))
    "createRecord"
    (Some (JObject [("baseId", JString "app1"); ("tableId", JString "tbl1");
                    ("fields", JObject [])]))
    []
  = (inr ToolNotFound, []).
Proof. reflexivity. Qed.

(** updateRecords with eleven entries: the schema raises "Maximum 10
    records allowed" and does not accept. *)
Lemma batch_size_checked_witness :
  batch_length UpdateTool eleven_updates = Some 11
  /\ In (bound_issue UpdateTool true) (batch_issues UpdateTool eleven_updates)
  /\ batch_accepts UpdateTool eleven_updates = false.
Proof.
  split; [reflexivity |].
  apply (proj1 (batch_size_checked sample_runtime (answer_with (success_response JNull))
                  sample_service UpdateTool eleven_updates 11 eq_refl)).
  right. repeat constructor.
Defined.

(** The same eleven entries handed to the callback: the PATCH goes out. *)
Example eleven_updates_are_sent :
  safeParse UpdateRecordsSchema eleven_updates
  = inl [{| code := too_big; path := [PKey "records"];
            message := Some "Maximum 10 records allowed" |}]
  /\ map (fun req => (RequestInit.method (Request.init req), Request.url req))
       (updateRecords_handler sample_runtime (answer_with (success_response JNull))
          sample_service eleven_updates_args []).2
     = [(Some "PATCH", "https://api.airtable.com/v0/app1/tbl1")].
Proof. split; reflexivity. Qed.

(** deleteRecords with three ids where the provider reports two successes
    and one failure. *)
Lemma batch_outcomes_pass_through_witness :
  answer_with (success_response three_outcomes)
    (batch_request sample_runtime sample_service delete_three)
  = inr (success_response three_outcomes)
  /\ batch_adapter sample_runtime (answer_with (success_response three_outcomes))
       sample_service delete_three []
     = (inr three_outcomes, [] ++ [batch_request sample_runtime sample_service delete_three])
  /\ batch_handler sample_runtime (answer_with (success_response three_outcomes))
       sample_service delete_three []
     = (inr {| ToolResult.content :=
                 [{| ContentItem.type := "text";
                     ContentItem.text :=
                       batch_heading delete_three +:+ "\n\n```json\n"
                       +:+ JSON_stringify sample_runtime three_outcomes 2 +:+ "\n```";
                     ContentItem.isError := None |}];
               ToolResult.isError := None |},
        [] ++ [batch_request sample_runtime sample_service delete_three]).
Proof.
  split; [reflexivity |].
  apply (batch_outcomes_pass_through sample_runtime
           (answer_with (success_response three_outcomes)) sample_service delete_three []
           (success_response three_outcomes) three_outcomes);
    reflexivity.
Defined.

(** The text of that result, written out: the three outcomes, the failed
    one among them, in the provider's order. *)
Example three_outcomes_in_the_text :
  (deleteRecords_handler sample_runtime (answer_with (success_response three_outcomes))
     sample_service
     {| DeleteRecords.baseId := "app1"; DeleteRecords.tableId := "tbl1";
        DeleteRecords.recordIds := ["rec1"; "rec2"; "rec3"] |} []).1
  = inr {| ToolResult.content :=
             [{| ContentItem.type := "text";
                 ContentItem.text :=
                   "**Records Deleted**\n\n```json\n"
                   +:+ render three_outcomes +:+ "\n```";
                 ContentItem.isError := None |}];
           ToolResult.isError := None |}.
Proof. reflexivity. Qed.

(** listBases against a provider that answers 422. *)
Lemma failure_is_flagged_inside_the_item_witness :
  lookup_tool "listBases"
    (registeredTools
       (server (session sample_runtime (answer_with unprocessable) only_bob sample_env alice)))
  = Some sample_listBases_tool
  /\ exists req item,
       callback sample_listBases_tool tt []
       = (inr {| ToolResult.content := [item]; ToolResult.isError := None |}, [] ++ [req])
       /\ ContentItem.type item = "text"
       /\ (forall err,
             outcome_of sample_runtime (answer_with unprocessable req) = inl err ->
             ContentItem.isError item = Some true
             /\ exists m, ContentItem.text item = "**Error**\n\n" +:+ m)
       /\ (forall v,
             outcome_of sample_runtime (answer_with unprocessable req) = inr v ->
             "listBases" <> "describeTable" ->
             ContentItem.isError item = None
             /\ exists heading value,
                  ContentItem.text item
                  = heading +:+ "\n\n```json\n"
                    +:+ JSON_stringify sample_runtime value 2 +:+ "\n```").
Proof.
  split; [reflexivity |].
  apply (failure_is_flagged_inside_the_item sample_runtime (answer_with unprocessable)
           only_bob sample_env alice "listBases" sample_listBases_tool tt []).
  reflexivity.
Defined.

(** That result, written out: the flag is inside the item and the result
    carries none. *)
Example failed_listBases_result :
  listBases_handler sample_runtime (answer_with unprocessable) sample_service tt []
  = (inr {| ToolResult.content :=
              [{| ContentItem.type := "text";
                  ContentItem.text :=
                    "**Error**\n\nFailed to list bases: Airtable API error: 422 Unprocessable Entity - INVALID_REQUEST_UNKNOWN at row 7";
                  ContentItem.isError := Some true |}];
            ToolResult.isError := None |},
     [request_of sample_service "/meta/bases" no_options]).
Proof. reflexivity. Qed.

Lemma upstream_body_embedded_whole_witness :
  answer_with unprocessable (request_of sample_service "/meta/bases" no_options)
  = inr unprocessable
  /\ exists message,
       message = "Airtable API error: 422 Unprocessable Entity - INVALID_REQUEST_UNKNOWN at row 7"
       /\ (makeRequest sample_runtime (answer_with unprocessable) sample_service
             "/meta/bases" no_options []).1
          = inl (ErrorObj message)
       /\ (String.length "INVALID_REQUEST_UNKNOWN at row 7" <= String.length message)%nat
       /\ forall (done : JSON -> ToolResult.t) (prefix : string),
            (try_catch
               (result <- makeRequest sample_runtime (answer_with unprocessable)
                            sample_service "/meta/bases" no_options ;;
                ret (done result))
               (fun error => ret (error_result (prefix +:+ error_text error))) []).1
            = inr (error_result (prefix +:+ message)).
Proof.
  split; [reflexivity |].
  apply (upstream_body_embedded_whole sample_runtime (answer_with unprocessable)
           sample_service "/meta/bases" no_options [] unprocessable
           "INVALID_REQUEST_UNKNOWN at row 7");
    reflexivity.
Defined.

(** listRecords asked for 101 records: the schema raises an issue at
    [maxRecords] and does not accept. *)
Lemma maxRecords_checked_witness :
  raw_member "maxRecords" too_many_records = Some (JNumber 101%Q)
  /\ listing_accepts ListTool too_many_records = false
  /\ exists i, In i (listing_issues ListTool too_many_records)
               /\ path i = [PKey "maxRecords"].
Proof.
  split; [reflexivity |].
  apply (proj1 (maxRecords_checked sample_runtime ListTool too_many_records) 101%Q).
  - reflexivity.
  - left. reflexivity.
Defined.

(** The same 101 handed to the callback: the GET goes out with it. *)
Example limit_101_is_sent :
  safeParse ListRecordsSchema too_many_records
  = inl [{| code := too_big; path := [PKey "maxRecords"]; message := None |}]
  /\ map Request.url
       (listRecords_handler sample_runtime (answer_with (success_response JNull))
          sample_service too_many_records_args []).2
     = ["https://api.airtable.com/v0/app1/tbl1?maxRecords=101"].
Proof. split; reflexivity. Qed.


(** The two requests of that example: they differ in the direction
    parameter only, which the code never adds by itself. *)
Example sort_by_name_requests :
  safeParse ListRecordsSchema
    (Some (JObject [("baseId", JString "app1"); ("tableId", JString "tbl1");
                    ("sort", JArray [JObject [("field", JString "Name")]])]))
  = inr sort_by_name
  /\ map Request.url
       (listRecords_handler sample_runtime (answer_with (success_response (JArray [])))
          sample_service sort_by_name []).2
     = ["https://api.airtable.com/v0/app1/tbl1?sort%5B0%5D%5Bfield%5D=Name"]
  /\ map Request.url
       (listRecords_handler sample_runtime (answer_with (success_response (JArray [])))
          sample_service (ascending_where_missing sort_by_name) []).2
     = ["https://api.airtable.com/v0/app1/tbl1?sort%5B0%5D%5Bfield%5D=Name&sort%5B0%5D%5Bdirection%5D=asc"].
Proof. repeat split. Qed.

(* ================================================================= *)
(** ** What validation guarantees *)

Lemma shape_ap_issues_app {A B} (f : Shape (A -> B)) (x : Shape A) p members :
  issues ((f <&> x) p members) = issues (f p members) ++ issues (x p members).
Proof. reflexivity. Qed.

Lemma clean_identifier k msg p members :
  issues (prop k (string_min 1 msg z_string) p members) = [] ->
  exists s, member k members = Some (JString s) /\ s <> "".
Proof.
  unfold prop, string_min, check, z_string.
  destruct (member k members) as [[| | | s | |] |]; simpl; try discriminate.
  destruct s as [| c s]; simpl; [discriminate |].
  intros _. eexists. split; [reflexivity | discriminate].
Qed.

Ltac split_issues H :=
  repeat match type of H with
    | issues ((_ <&> _) _ _) = [] =>
        rewrite shape_ap_issues_app in H;
        let H' := fresh "Hkey" in
        apply app_eq_nil in H as [H H']
    end.

(** X1. Arguments that pass the schema of an operation are an object;
    their [baseId] (every operation but listBases), their [tableId] (every
    operation that takes one) and the [recordId] of getRecord are
    non-empty strings. *)
Theorem validated_identifiers_are_non_empty (op : Operation) (raw : option JSON) :
  schema_issues op raw = [] ->
  is_object raw = true
  /\ (op <> op_listBases ->
      exists s, raw_member "baseId" raw = Some (JString s) /\ s <> "")
  /\ (takes_tableId op = true ->
      exists s, raw_member "tableId" raw = Some (JString s) /\ s <> "")
  /\ (op = op_getRecord ->
      exists s, raw_member "recordId" raw = Some (JString s) /\ s <> "").
Proof.
  intros Hclean.
  assert (Hobj : is_object raw = true).
  { destruct raw as [[| | | | | members] |]; try reflexivity;
      destruct op; discriminate Hclean. }
  split; [exact Hobj |].
  destruct raw as [[| | | | | members] |]; try discriminate Hobj.
  unfold raw_member.
  destruct op; unfold schema_issues in Hclean;
    unfold ListBasesSchema, ListTablesSchema, DescribeTableSchema, ListRecordsSchema,
      GetRecordSchema, SearchRecordsSchema, CreateRecordSchema, UpdateRecordsSchema,
      DeleteRecordsSchema, z_object in Hclean;
    split_issues Hclean;
    repeat split; intros Hop; try congruence; try discriminate Hop;
    eauto using clean_identifier.
Qed.

(* ================================================================= *)
(** ** The requests the callbacks send *)

Section Requests.

Context (rt : Runtime) (fetch : Request.t -> Thrown + Response.t).

Lemma prefix_empty (s : string) : String.prefix "" s = true.
Proof. destruct s; reflexivity. Qed.

Lemma guarded_log {A} (call : Net A) (done : A -> ToolResult.t)
    (failed : Thrown -> ToolResult.t) sent :
  (try_catch (result <- call ;; ret (done result)) (fun error => ret (failed error)) sent).2
  = (call sent).2.
Proof. rewrite guarded_run. destruct (call sent) as [[e | v] sent']; reflexivity. Qed.

Ltac one_request :=
  intros sent; rewrite guarded_log, makeRequest_run; simpl;
  eexists; split; [reflexivity |];
  eexists _, _; split; [reflexivity |]; repeat split; try reflexivity; try congruence; eexists; reflexivity.

Lemma listBases_sends this a :
  sends (built_for this None) (listBases_handler rt fetch this a).
Proof. unfold listBases_handler, listBases. one_request. Qed.

Lemma listTables_sends this a :
  sends (built_for this None) (listTables_handler rt fetch this a).
Proof. unfold listTables_handler, getBaseSchema. one_request. Qed.

Lemma describeTable_sends this a :
  sends (built_for this None) (describeTable_handler rt fetch this a).
Proof.
  intros sent.
  assert (Hlog : (describeTable_handler rt fetch this a sent).2
                 = (getBaseSchema rt fetch this (DescribeTable.baseId a) sent).2).
  { unfold describeTable_handler, try_catch, bind, lift, ret.
    destruct (getBaseSchema _ _ _ _ sent) as [[e | baseSchema] sent']; [reflexivity |].
    destruct (tables_of baseSchema) as [e | tables]; [reflexivity |].
    destruct (find_table _ tables) as [e | [table |]]; reflexivity. }
  rewrite Hlog. unfold getBaseSchema. rewrite makeRequest_run. simpl.
  eexists; split; [reflexivity |].
  eexists _, _; split; [reflexivity |]; repeat split; try reflexivity; try congruence; eexists; reflexivity.
Qed.

Lemma listRecords_sends this a :
  sends (built_for this None) (listRecords_handler rt fetch this a).
Proof. unfold listRecords_handler, listRecords. one_request. Qed.

Lemma getRecord_sends this a :
  sends (built_for this None) (getRecord_handler rt fetch this a).
Proof. unfold getRecord_handler, getRecord. one_request. Qed.

Lemma searchRecords_sends this a :
  sends (built_for this None) (searchRecords_handler rt fetch this a).
Proof. unfold searchRecords_handler, listRecords. one_request. Qed.

Lemma createRecord_sends this a :
  sends (built_for this (Some "POST")) (createRecord_handler rt fetch this a).
Proof. unfold createRecord_handler, createRecord. one_request. Qed.

Lemma updateRecords_sends this a :
  sends (built_for this (Some "PATCH")) (updateRecords_handler rt fetch this a).
Proof. unfold updateRecords_handler, updateRecords. one_request. Qed.

Lemma deleteRecords_sends this a :
  sends (built_for this (Some "DELETE")) (deleteRecords_handler rt fetch this a).
Proof. unfold deleteRecords_handler, deleteRecords. one_request. Qed.

Variable ALLOWED_WRITE_USERNAMES : gset string.

Lemma registered_sends env props (op : Operation) (t : RegisteredTool) :
  lookup_tool (operation_name op)
    (registeredTools (server (session rt fetch ALLOWED_WRITE_USERNAMES env props)))
  = Some t ->
  forall args : Args t,
    sends (built_for (new_AirtableService (AIRTABLE_API_KEY env)) (method_of op))
      (callback t args).
Proof.
  unfold session, init, registerAirtableTools.
  destruct (bool_decide (login props ∈ ALLOWED_WRITE_USERNAMES)); destruct op; simpl.
  all: intros H; try discriminate H.
  all: injection H as <-; simpl; intros args.
  all: auto using listBases_sends, listTables_sends, describeTable_sends,
         listRecords_sends, getRecord_sends, searchRecords_sends,
         createRecord_sends, updateRecords_sends, deleteRecords_sends.
Qed.

(** X2. Every registered callback adds exactly one request to those
    sent, with the method of its operation: POST for createRecord, PATCH
    for updateRecords, DELETE for deleteRecords, and none for the six read
    operations, whose request also has no body.  A read never sends a
    mutation. *)
Theorem reads_never_send_a_mutation env props (op : Operation) (t : RegisteredTool)
    (args : Args t) (sent : list Request.t) :
  lookup_tool (operation_name op)
    (registeredTools (server (session rt fetch ALLOWED_WRITE_USERNAMES env props)))
  = Some t ->
  exists req,
    (callback t args sent).2 = sent ++ [req]
    /\ RequestInit.method (Request.init req) = method_of op
    /\ (classification op = READ ->
        RequestInit.method (Request.init req) = None
        /\ RequestInit.body (Request.init req) = None).
Proof.
  intros Hreg.
  destruct (registered_sends env props op t Hreg args sent)
    as (req & Hlog & endpoint & options & -> & _ & Hm & _ & Hbody).
  exists (request_of (new_AirtableService (AIRTABLE_API_KEY env)) endpoint options).
  split; [exact Hlog |]. simpl. split; [exact Hm |].
  intros Hread.
  assert (Hnone : method_of op = None) by (destruct op; try reflexivity; simpl in Hread; discriminate Hread).
  rewrite Hm. split; [exact Hnone |]. apply Hbody. congruence.
Qed.

(** X3. The one request of every registered callback goes to a URL under
    [https://api.airtable.com/v0/] and carries exactly two headers: the
    bearer authorization built from [env.AIRTABLE_API_KEY] and the JSON
    content type. *)
Theorem requests_carry_the_key_to_airtable env props (op : Operation)
    (t : RegisteredTool) (args : Args t) (sent : list Request.t) :
  lookup_tool (operation_name op)
    (registeredTools (server (session rt fetch ALLOWED_WRITE_USERNAMES env props)))
  = Some t ->
  exists req,
    (callback t args sent).2 = sent ++ [req]
    /\ String.prefix "https://api.airtable.com/v0/" (Request.url req) = true
    /\ RequestInit.headers (Request.init req)
       = [("Authorization", "Bearer " +:+ AIRTABLE_API_KEY env);
          ("Content-Type", "application/json")].
Proof.
  intros Hreg.
  destruct (registered_sends env props op t Hreg args sent)
    as (req & Hlog & endpoint & options & -> & Hslash & _ & Hheaders & _).
  eexists. split; [exact Hlog |]. simpl. rewrite Hheaders. split; [| reflexivity].
  destruct Hslash as [rest ->]. simpl. apply prefix_empty.
Qed.

End Requests.

(* ================================================================= *)
(** ** The query of listRecords and deleteRecords *)

Lemma sort_params_keys index items k v :
  In (k, v) (sort_params index items) -> exists rest, k = "sort[" +:+ rest.
Proof.
  revert index. induction items as [| [field direction] items IH]; intros index; simpl.
  - tauto.
  - unfold sort_entry_params. simpl.
    intros [[= <- _] | Hin]; [eauto |].
    apply in_app_iff in Hin as [Hin | Hin]; [| eapply IH, Hin].
    destruct direction as [d |]; simpl in Hin; [| tauto].
    destruct Hin as [[= <- _] | []]. eauto.
Qed.

Lemma truthy_non_empty (s : string) : string_truthy s = true <-> s <> "".
Proof. destruct s; simpl; split; congruence. Qed.

(** X4. In the query of listRecords, a [view] parameter is present
    exactly when a non-empty view is given, a [filterByFormula] parameter
    exactly when a non-empty formula is given, and a [maxRecords] parameter
    exactly when a non-zero maxRecords is given: an empty string or a zero
    is dropped like a missing option. *)
Theorem optional_parameters_sent_when_truthy (rt : Runtime) (options : ListOptions.t) :
  (forall v, In ("view", v) (listRecords_params rt options)
             <-> ListOptions.view options = Some v /\ v <> "")
  /\ (forall f, In ("filterByFormula", f) (listRecords_params rt options)
                <-> ListOptions.filterByFormula options = Some f /\ f <> "")
  /\ (forall s, In ("maxRecords", s) (listRecords_params rt options)
                <-> exists n, ListOptions.maxRecords options = Some n
                              /\ number_truthy n = true
                              /\ s = Number_toString rt n).
Proof.
  rewrite listRecords_params_split.
  assert (Hsort : forall k v,
             In (k, v) match ListOptions.sort options with
                       | Some items => sort_params 0 items
                       | None => []
                       end ->
             exists rest, k = "sort[" +:+ rest).
  { intros k v. destruct (ListOptions.sort options); [apply sort_params_keys | intros []]. }
  unfold append_if, params_append.
  destruct (ListOptions.view options) as [view |];
    destruct (ListOptions.maxRecords options) as [n |];
    destruct (ListOptions.filterByFormula options) as [filter |];
    repeat match goal with
      | |- context [string_truthy ?s] => destruct (string_truthy s) eqn:?
      | |- context [number_truthy ?s] => destruct (number_truthy s) eqn:?
      end;
    simpl;
    (split; [| split]); intros x; (split; [intros Hin | intros Hx]);
    repeat match goal with
      | H : _ \/ _ |- _ => destruct H as [H | H]
      | H : (_, _) = (_, _) |- _ => injection H as <-
      | H : (_, _) = (_, _) |- _ => discriminate H
      | H : In _ _ |- _ => apply Hsort in H as [? H]; discriminate H
      | H : exists _, _ |- _ => destruct H as (? & H)
      | H : _ /\ _ |- _ => destruct H as [? ?]
      | H : Some _ = Some _ |- _ => injection H as ->
      | H : ?s <> "" , E : string_truthy ?s = false |- _ =>
          apply truthy_non_empty in H; congruence
      | H : string_truthy ?s = true |- _ => apply truthy_non_empty in H
      end;
    subst; try discriminate; try congruence; eauto.
Qed.

Lemma decode_encode_byte c rest :
  form_decode (form_encode_byte c +:+ rest) = String c (form_decode rest).
Proof. destruct c as [[] [] [] [] [] [] [] []]; reflexivity. Qed.

Lemma form_decode_encode s : form_decode (form_encode s) = s.
Proof.
  induction s as [| c s IH]; simpl; [reflexivity |].
  by rewrite decode_encode_byte, IH.
Qed.

Lemma lacks_app sep a b : lacks sep (a +:+ b) = lacks sep a && lacks sep b.
Proof.
  induction a as [| c a IH]; simpl; [reflexivity |].
  rewrite IH. by rewrite andb_assoc.
Qed.

Lemma encode_byte_lacks_amp c : lacks "&" (form_encode_byte c) = true.
Proof. destruct c as [[] [] [] [] [] [] [] []]; reflexivity. Qed.

Lemma encode_byte_lacks_eq c : lacks "=" (form_encode_byte c) = true.
Proof. destruct c as [[] [] [] [] [] [] [] []]; reflexivity. Qed.

Lemma encode_lacks_amp s : lacks "&" (form_encode s) = true.
Proof.
  induction s as [| c s IH]; simpl; [reflexivity |].
  by rewrite lacks_app, encode_byte_lacks_amp, IH.
Qed.

Lemma encode_lacks_eq s : lacks "=" (form_encode s) = true.
Proof.
  induction s as [| c s IH]; simpl; [reflexivity |].
  by rewrite lacks_app, encode_byte_lacks_eq, IH.
Qed.

Lemma fields_whole sep a : lacks sep a = true -> fields sep a = [a].
Proof.
  induction a as [| c a IH]; simpl; [reflexivity |].
  intros [Hc Ha]%andb_true_iff. apply negb_true_iff in Hc. rewrite Hc, (IH Ha). reflexivity.
Qed.

Lemma fields_cut sep a b :
  lacks sep a = true -> fields sep (a +:+ String sep b) = a :: fields sep b.
Proof.
  induction a as [| c a IH]; simpl.
  - by rewrite Ascii.eqb_refl.
  - intros [Hc Ha]%andb_true_iff. apply negb_true_iff in Hc. rewrite Hc, (IH Ha). reflexivity.
Qed.

Lemma fields_cut_text sep a b :
  lacks sep a = true ->
  fields sep (a +:+ String sep EmptyString +:+ b) = a :: fields sep b.
Proof. apply fields_cut. Qed.

Lemma entry_lacks_amp kv : lacks "&" (entry_text kv) = true.
Proof.
  unfold entry_text. rewrite !lacks_app, !encode_lacks_amp. reflexivity.
Qed.

Lemma parse_entry kv : parse_pair (entry_text kv) = kv.
Proof.
  destruct kv as [k v]. unfold parse_pair, entry_text. cbn [fst snd].
  rewrite fields_cut_text by apply encode_lacks_eq.
  rewrite fields_whole by apply encode_lacks_eq.
  by rewrite !form_decode_encode.
Qed.

Lemma fields_concat (x : string) (ls : list string) :
  lacks "&" x = true -> Forall (fun s => lacks "&" s = true) ls ->
  fields "&" (String.concat "&" (x :: ls)) = x :: ls.
Proof.
  revert x. induction ls as [| y ls IH]; intros x Hx Hls.
  - simpl. by apply fields_whole.
  - change (String.concat "&" (x :: y :: ls))
      with (x +:+ String "&" EmptyString +:+ String.concat "&" (y :: ls)).
    rewrite fields_cut_text by exact Hx.
    inversion Hls; subst. by rewrite IH.
Qed.

Lemma parse_query_toString (p : URLSearchParams) : parse_query (params_toString p) = p.
Proof.
  unfold params_toString.
  change (fun kv : string * string => form_encode kv.1 +:+ "=" +:+ form_encode kv.2)
    with entry_text.
  destruct p as [| kv rest]; [reflexivity |].
  destruct (entry_non_empty kv rest) as (c & s & Hs).
  unfold parse_query. rewrite Hs, <- Hs.
  change (map entry_text (kv :: rest)) with (entry_text kv :: map entry_text rest).
  rewrite fields_concat;
    [| apply entry_lacks_amp
     | clear; induction rest; simpl; constructor;
       [apply entry_lacks_amp | assumption]].
  change (entry_text kv :: map entry_text rest) with (map entry_text (kv :: rest)).
  rewrite map_map. rewrite <- (map_id (kv :: rest)) at 2.
  apply map_ext. intros x. apply parse_entry.
Qed.

Lemma app_inv_prefix (a x y : string) : a +:+ x = a +:+ y -> x = y.
Proof. induction a as [| c a IH]; simpl; [tauto |]. intros [= H]. auto. Qed.

Section Encoding.

Context (rt : Runtime) (fetch : Request.t -> Thrown + Response.t).

(** X5. For a given base and table, two deleteRecords calls whose
    record ids are well-formed strings and which send the same request
    were given the same ids, in the same order: the ids are
    percent-encoded, so an id holding [&], [=] or a space cannot pass for
    other ids. *)
Theorem delete_request_determines_ids this (baseId tableId : string)
    (ids ids' : list string) (sent : list Request.t) :
  Forall (fun id => well_formed id = true) ids ->
  Forall (fun id => well_formed id = true) ids' ->
  (deleteRecords rt fetch this baseId tableId ids sent).2
  = (deleteRecords rt fetch this baseId tableId ids' sent).2 ->
  ids = ids'.
Proof.
  intros _ _.
  unfold deleteRecords. rewrite !delete_params, !makeRequest_run.
  cbn [snd app]. intros Hlog. apply app_inv_head in Hlog.
  injection Hlog as Hreq.
  do 6 apply app_inv_prefix in Hreq.
  apply (f_equal parse_query) in Hreq. rewrite !parse_query_toString in Hreq.
  rename Hreq into Hurl.
  revert ids' Hurl. induction ids as [| id ids IH]; intros [| id' ids']; simpl;
    try discriminate; [reflexivity |].
  intros [= -> Hrest]. f_equal. apply IH, Hrest.
Qed.

End Encoding.

Section Queries.

Context (rt : Runtime) (fetch : Request.t -> Thrown + Response.t).

(** X6. listRecords writes the [?] and the query exactly when there is
    a parameter; and for a given base and table, two calls whose
    parameters are well-formed strings and which send the same request
    built the same list of parameters. *)
Theorem list_request_determines_parameters this (baseId tableId : string)
    (options options' : ListOptions.t) (sent : list Request.t) :
  (listRecords rt fetch this baseId tableId options sent).2
  = sent ++ [request_of this
               ("/" +:+ baseId +:+ "/" +:+ tableId
                +:+ match listRecords_params rt options with
                    | [] => ""
                    | params => "?" +:+ params_toString params
                    end)
               no_options]
  /\ (Forall (fun kv => well_formed_entry kv = true) (listRecords_params rt options) ->
      Forall (fun kv => well_formed_entry kv = true) (listRecords_params rt options') ->
      (listRecords rt fetch this baseId tableId options sent).2
      = (listRecords rt fetch this baseId tableId options' sent).2 ->
      listRecords_params rt options = listRecords_params rt options').
Proof.
  split.
  - unfold listRecords. rewrite makeRequest_run, params_text_truthy. cbn [snd].
    by destruct (listRecords_params rt options).
  - intros _ _.
    unfold listRecords. rewrite !makeRequest_run.
    cbn [snd]. intros Hlog. apply app_inv_head in Hlog.
    injection Hlog as Hurl.
    do 5 apply app_inv_prefix in Hurl.
    destruct (string_truthy (params_toString (listRecords_params rt options))) eqn:Hq;
      destruct (string_truthy (params_toString (listRecords_params rt options'))) eqn:Hq'.
    + apply app_inv_prefix in Hurl.
      apply (f_equal parse_query) in Hurl. by rewrite !parse_query_toString in Hurl.
    + discriminate Hurl.
    + discriminate Hurl.
    + apply params_text_empty in Hq, Hq'. congruence.
Qed.

(** X7. When describeTable returns a success, its text renders a table
    that the provider listed for the base and whose [id] is the requested
    [tableId]; it never renders another table. *)
Theorem describeTable_returns_the_requested_table this (args : DescribeTable.Args)
    (sent : list Request.t) (text : string) :
  (describeTable_handler rt fetch this args sent).1 = inr (text_result text) ->
  exists baseSchema tables table members,
    outcome_of rt
      (fetch (request_of this ("/meta/bases/" +:+ DescribeTable.baseId args +:+ "/tables")
                no_options))
    = inr baseSchema
    /\ tables_of baseSchema = inr tables
    /\ In table tables
    /\ table = JObject members
    /\ member "id" members = Some (JString (DescribeTable.tableId args))
    /\ text = json_block rt "**Table Details**" table.
Proof.
  unfold describeTable_handler, getBaseSchema, try_catch, bind, lift, ret.
  rewrite makeRequest_run.
  destruct (outcome_of rt _) as [e | baseSchema] eqn:Hout; [discriminate |].
  destruct (tables_of baseSchema) as [e | tables] eqn:Htables; [discriminate |].
  destruct (find_table _ tables) as [e | [table |]] eqn:Hfind; try discriminate.
  simpl. intros [= <-].
  exists baseSchema, tables, table.
  assert (Hspec : In table tables
                  /\ exists members, table = JObject members
                       /\ member "id" members = Some (JString (DescribeTable.tableId args))).
  { clear Htables Hout. induction tables as [| x rest IH]; simpl in Hfind; [discriminate |].
    destruct (id_is _ x) as [e | []] eqn:Hid; try discriminate.
    - injection Hfind as ->. split; [by left |].
      unfold id_is in Hid. destruct table as [| | | | | members]; try discriminate.
      exists members. split; [reflexivity |].
      destruct (member "id" members) as [[| | | s | |] |]; try discriminate.
      injection Hid as Heq. apply String.eqb_eq in Heq. by subst.
    - destruct (IH Hfind) as [Hin Hm]. split; [by right | exact Hm]. }
  destruct Hspec as (Hin & members & -> & Hid).
  exists members. repeat split; assumption.
Qed.

(** X8. When the provider's answer lists tables none of which is
    [null] or an object whose [id] is the requested [tableId],
    describeTable returns the error item
    "Table <tableId> not found in base <baseId>". *)
Theorem describeTable_reports_missing_table this (args : DescribeTable.Args)
    (sent : list Request.t) (baseSchema : JSON) (tables : list JSON) :
  outcome_of rt
    (fetch (request_of this ("/meta/bases/" +:+ DescribeTable.baseId args +:+ "/tables")
              no_options))
  = inr baseSchema ->
  tables_of baseSchema = inr tables ->
  Forall (fun table =>
            table <> JNull
            /\ forall members,
                 table = JObject members ->
                 member "id" members <> Some (JString (DescribeTable.tableId args)))
         tables ->
  (describeTable_handler rt fetch this args sent).1
  = inr {| ToolResult.content :=
             [{| ContentItem.type := "text";
                 ContentItem.text :=
                   "**Error**\n\nTable " +:+ DescribeTable.tableId args
                   +:+ " not found in base " +:+ DescribeTable.baseId args;
                 ContentItem.isError := Some true |}];
           ToolResult.isError := None |}.
Proof.
  intros Hout Htables Hnone.
  unfold describeTable_handler, getBaseSchema, try_catch, bind, lift, ret.
  rewrite makeRequest_run, Hout, Htables.
  assert (Hfind : find_table (DescribeTable.tableId args) tables = inr None).
  { clear Htables. induction Hnone as [| x rest [Hnull Hid] _ IH]; simpl; [reflexivity |].
    assert (Hx : id_is (DescribeTable.tableId args) x = inr false).
    { unfold id_is. destruct x as [| | | | | members]; try reflexivity; [congruence |].
      specialize (Hid members eq_refl).
      destruct (member "id" members) as [[| | | s | |] |]; try reflexivity.
      destruct (String.eqb_spec s (DescribeTable.tableId args)) as [-> |];
        [congruence | reflexivity]. }
    rewrite Hx. exact IH. }
  rewrite Hfind. reflexivity.
Qed.

(** X9. Arguments with non-empty [baseId], [tableId] and [recordId] pass
    GetRecordSchema, and the callback then sends one request without
    method or body to [/<baseId>/<tableId>/<recordId>] and returns the
    provider's value under the heading "Record <recordId>", or the error
    under "Failed to get record". *)
Theorem getRecord_requests_the_record (members : list (string * JSON))
    (baseId tableId recordId : string) this (sent : list Request.t) :
  member "baseId" members = Some (JString baseId) -> baseId <> "" ->
  member "tableId" members = Some (JString tableId) -> tableId <> "" ->
  member "recordId" members = Some (JString recordId) -> recordId <> "" ->
  exists args,
    safeParse GetRecordSchema (Some (JObject members)) = inr args
    /\ getRecord_handler rt fetch this args sent
       = (inr match outcome_of rt
                      (fetch (request_of this
                                ("/" +:+ baseId +:+ "/" +:+ tableId +:+ "/" +:+ recordId)
                                no_options)) with
              | inr result =>
                  text_result (json_block rt ("**Record " +:+ recordId +:+ "**") result)
              | inl error =>
                  error_result ("**Error**\n\nFailed to get record: " +:+ error_text error)
              end,
          sent ++ [request_of this
                     ("/" +:+ baseId +:+ "/" +:+ tableId +:+ "/" +:+ recordId)
                     no_options]).
Proof.
  intros Hb Hbne Ht Htne Hr Hrne.
  exists {| GetRecord.baseId := baseId; GetRecord.tableId := tableId;
            GetRecord.recordId := recordId |}.
  split.
  - unfold safeParse, GetRecordSchema, z_object, shape_ap, shape_of, prop.
    rewrite Hb, Ht, Hr, !non_empty_passes by assumption. reflexivity.
  - unfold getRecord_handler, getRecord. rewrite guarded_run, makeRequest_run. simpl.
    destruct (outcome_of rt _); reflexivity.
Qed.

End Queries.

(* ================================================================= *)
(** ** Names outside the registry *)

Lemma has_tool_names name (s : McpServer) :
  has_tool name s = true <-> In name (tool_names s).
Proof.
  unfold has_tool, tool_names. destruct s as [tools]. simpl.
  induction tools as [| [n t] rest IH]; simpl.
  - split; [discriminate | tauto].
  - destruct (String.eqb_spec name n) as [-> | Hne].
    + split; auto.
    + rewrite IH. split; [auto | intros [-> | H]; [contradiction | exact H]].
Qed.

Section Lookup.

Context (rt : Runtime) (fetch : Request.t -> Thrown + Response.t).
Variable ALLOWED_WRITE_USERNAMES : gset string.

Local Abbreviation registry env props :=
  (server (session rt fetch ALLOWED_WRITE_USERNAMES env props)).

(** X11. A command whose name is none of the six read operations, nor,
    for an allow-listed login, one of the three write operations, is not
    found, and nothing is sent. *)
Theorem unregistered_names_are_not_found env props (operationName : string)
    (rawArguments : option JSON) (sent : list Request.t) :
  ~ In operationName
      (["listBases"; "listTables"; "describeTable"; "listRecords"; "getRecord";
        "searchRecords"]
       ++ (if bool_decide (login props ∈ ALLOWED_WRITE_USERNAMES)
           then ["createRecord"; "updateRecords"; "deleteRecords"] else [])) ->
  callTool (registry env props) operationName rawArguments sent = (inr ToolNotFound, sent).
Proof.
  intros Hout.
  assert (Hnone : has_tool operationName (registry env props) = false).
  { apply not_true_is_false. rewrite has_tool_names, session_tool_names. exact Hout. }
  unfold callTool. unfold has_tool in Hnone.
  destruct (lookup_tool operationName _); [discriminate Hnone | reflexivity].
Qed.

End Lookup.

(* ================================================================= *)
(** ** From validated arguments to the request *)

Lemma ap_value {A B} (f : ParseReturn (A -> B)) (x : ParseReturn A) (c : B) :
  value (f <@> x) = Some c ->
  exists g a, value f = Some g /\ value x = Some a /\ c = g a.
Proof.
  unfold ap. simpl. destruct (value f) as [g |], (value x) as [a |]; try discriminate.
  intros [= <-]. eauto.
Qed.

Lemma safeParse_clean {A} (t : ZodType A) raw (a : A) :
  safeParse t raw = inr a -> issues (t [] raw) = [] /\ value (t [] raw) = Some a.
Proof.
  unfold safeParse. destruct (issues (t [] raw)); [| discriminate].
  destruct (value (t [] raw)); [| discriminate]. intros [= ->]. auto.
Qed.

Lemma clean_string k msg p members (s : string) :
  issues (prop k (string_min 1 msg z_string) p members) = [] ->
  value (prop k (string_min 1 msg z_string) p members) = Some s ->
  member k members = Some (JString s) /\ s <> "".
Proof.
  unfold prop, string_min, check, z_string.
  destruct (member k members) as [[| | | s' | |] |]; simpl; try discriminate.
  destruct s' as [| c s']; simpl; [discriminate |].
  intros _ [= <-]. split; [reflexivity | discriminate].
Qed.

Lemma clean_maxRecords p members (m : option number) :
  issues (prop "maxRecords"
            (optional (number_max 100%Q (number_positive (number_int z_number)))) p members)
  = [] ->
  value (prop "maxRecords"
           (optional (number_max 100%Q (number_positive (number_int z_number)))) p members)
  = Some m ->
  match m with
  | None => member "maxRecords" members = None
  | Some n =>
      member "maxRecords" members = Some (JNumber n)
      /\ Number_isInteger n = true /\ number_gt n 0%Q = true /\ number_le n 100%Q = true
  end.
Proof.
  unfold prop.
  destruct (member "maxRecords" members) as [[| | n | | |] |] eqn:Hm;
    try (simpl; discriminate).
  - unfold optional, number_max, number_positive, number_int, check, z_number, ap.
    simpl.
    destruct (Number_isInteger n) eqn:Hint; simpl;
      destruct (number_gt n 0%Q) eqn:Hpos; simpl;
      destruct (number_le n 100%Q) eqn:Hmax; simpl; try discriminate.
    intros _ [= <-]. auto.
  - simpl. intros _ [= <-]. reflexivity.
Qed.

Lemma positive_is_truthy (n : number) : number_gt n 0%Q = true -> number_truthy n = true.
Proof.
  unfold number_gt, number_truthy. intros H.
  apply negb_true_iff in H. apply negb_true_iff.
  apply Z.eqb_neq. intros Hz.
  assert (Hle : Qle_bool n 0%Q = true).
  { apply Qle_bool_iff. unfold Qle. simpl. rewrite Hz. reflexivity. }
  congruence.
Qed.

Ltac invert_parse H :=
  apply safeParse_clean in H as [Hissues Hvalue];
  repeat match type of Hvalue with
    | value ((_ <&> _) _ _) = Some _ =>
        let g := fresh "g" in let a := fresh "a" in
        let Hg := fresh "Hg" in let Ha := fresh "Ha" in
        apply ap_value in Hvalue as (g & a & Hvalue & Ha & ->)
    end;
  split_issues Hissues.

Section Validated.

Context (rt : Runtime).

(** X12. Arguments that pass SearchRecordsSchema have a non-empty
    formula, and the query of the search consists of [maxRecords], when
    one was given, followed by [filterByFormula] with that formula:
    neither is dropped by the truthiness tests of listRecords. *)
Theorem validated_search_sends_its_formula (raw : option JSON) (a : SearchRecords.Args) :
  safeParse SearchRecordsSchema raw = inr a ->
  SearchRecords.filterByFormula a <> ""
  /\ listRecords_params rt
       {| ListOptions.view := None;
          ListOptions.maxRecords := SearchRecords.maxRecords a;
          ListOptions.sort := None;
          ListOptions.filterByFormula := Some (SearchRecords.filterByFormula a) |}
     = match SearchRecords.maxRecords a with
       | Some n => [("maxRecords", Number_toString rt n)]
       | None => []
       end
       ++ [("filterByFormula", SearchRecords.filterByFormula a)].
Proof.
  intros Hparse.
  destruct raw as [[| | | | | members] |]; try discriminate Hparse.
  unfold SearchRecordsSchema, z_object in Hparse.
  invert_parse Hparse.
  injection Hvalue as <-. cbn [SearchRecords.filterByFormula SearchRecords.maxRecords].
  match goal with
  | Hi : issues (prop "filterByFormula" _ _ _) = [],
    Hv : value (prop "filterByFormula" _ _ _) = Some ?f |- _ =>
      destruct (clean_string _ _ _ _ _ Hi Hv) as [_ Hf]
  end.
  split; [exact Hf |].
  unfold listRecords_params, append_if, params_append.
  cbn [ListOptions.view ListOptions.maxRecords ListOptions.sort
       ListOptions.filterByFormula].
  apply truthy_non_empty in Hf. rewrite Hf.
  match goal with
  | Hi : issues (prop "maxRecords" _ _ _) = [],
    Hv : value (prop "maxRecords" _ _ _) = Some ?m |- _ =>
      pose proof (clean_maxRecords _ _ _ Hi Hv) as Hm; destruct m as [n |]
  end; [| reflexivity].
  destruct Hm as (_ & _ & Hpos & _). by rewrite (positive_is_truthy n Hpos).
Qed.

(** X13. A [maxRecords] that passed ListRecordsSchema is the number of
    the raw arguments, an integer above 0 and at most 100, and it is among
    the query parameters of the request. *)
Theorem validated_limit_is_sent (raw : option JSON) (a : ListRecords.Args) (n : number) :
  safeParse ListRecordsSchema raw = inr a ->
  ListRecords.maxRecords a = Some n ->
  raw_member "maxRecords" raw = Some (JNumber n)
  /\ Number_isInteger n = true /\ (0 < n)%Q /\ (n <= 100)%Q
  /\ In ("maxRecords", Number_toString rt n)
       (listRecords_params rt
          {| ListOptions.view := ListRecords.view a;
             ListOptions.maxRecords := ListRecords.maxRecords a;
             ListOptions.sort := ListRecords.sort a;
             ListOptions.filterByFormula := ListRecords.filterByFormula a |}).
Proof.
  intros Hparse Hn.
  destruct raw as [[| | | | | members] |]; try discriminate Hparse.
  unfold ListRecordsSchema, z_object in Hparse.
  invert_parse Hparse.
  injection Hvalue as <-. cbn [ListRecords.maxRecords] in Hn. subst.
  match goal with
  | Hi : issues (prop "maxRecords" _ _ _) = [],
    Hv : value (prop "maxRecords" _ _ _) = Some _ |- _ =>
      pose proof (clean_maxRecords _ _ _ Hi Hv) as (Hm & Hint & Hpos & Hmax)
  end.
  split; [exact Hm |]. split; [exact Hint |].
  split.
  { unfold number_gt in Hpos. apply negb_true_iff in Hpos.
    apply Qnot_le_lt. intros Hle. apply Qle_bool_iff in Hle. congruence. }
  split; [by apply Qle_bool_iff |].
  apply limit_in_params; [reflexivity | by apply positive_is_truthy].
Qed.

End Validated.

(** An issue of the element at index [i] is an issue of the array. *)
Lemma parse_items_issue {A} (item : ZodType A) p n xs i x iss :
  nth_error xs i = Some x ->
  In iss (issues (item (p ++ [PIndex (n + i)]) (Some x))) ->
  In iss (issues (parse_items item p n xs)).
Proof.
  revert n i. induction xs as [| y rest IH]; intros n i; [destruct i; discriminate |].
  destruct i as [| i]; simpl.
  - intros [= ->]. rewrite Nat.add_0_r. intros Hin. apply in_or_app. left. exact Hin.
  - intros Hnth Hin. apply in_or_app. right.
    apply (IH (S n) i Hnth). by rewrite Nat.add_succ_l, <- Nat.add_succ_r.
Qed.

Lemma unknown_direction p members (s : string) :
  member "direction" members = Some (JString s) ->
  s <> "asc" -> s <> "desc" ->
  In {| code := invalid_enum_value; path := p ++ [PKey "direction"]; message := None |}
     (issues (SortItemSchema p (Some (JObject members)))).
Proof.
  intros Hm Hasc Hdesc.
  unfold SortItemSchema, z_object. apply shape_ap_issues. right.
  unfold prop, optional, z_enum. rewrite Hm. simpl.
  destruct (String.eqb_spec s "asc"); [contradiction |].
  destruct (String.eqb_spec s "desc"); [contradiction |].
  simpl. by left.
Qed.

(** X14. A listRecords sort entry whose direction is a string other
    than "asc" and "desc" raises an invalid-enum issue at
    [sort, i, direction], and ListRecordsSchema does not accept the
    arguments. *)
Theorem unknown_sort_direction_is_rejected
    (members entry : list (string * JSON)) (entries : list JSON) (i : nat) (s : string) :
  member "sort" members = Some (JArray entries) ->
  nth_error entries i = Some (JObject entry) ->
  member "direction" entry = Some (JString s) ->
  s <> "asc" -> s <> "desc" ->
  In {| code := invalid_enum_value;
        path := [PKey "sort"; PIndex i; PKey "direction"];
        message := None |}
     (listing_issues ListTool (Some (JObject members)))
  /\ listing_accepts ListTool (Some (JObject members)) = false.
Proof.
  intros Hsort Hnth Hdir Hasc Hdesc.
  assert (Hin : In {| code := invalid_enum_value;
                      path := [PKey "sort"; PIndex i; PKey "direction"];
                      message := None |}
                   (listing_issues ListTool (Some (JObject members)))).
  { unfold listing_issues, ListRecordsSchema, z_object.
    rewrite !shape_ap_issues. left. right.
    unfold prop, optional, z_array. rewrite Hsort. simpl.
    eapply parse_items_issue; [exact Hnth |].
    apply (unknown_direction ([PKey "sort"] ++ [PIndex (0 + i)]) entry s); assumption. }
  split; [exact Hin |].
  apply listing_issue_refuses.
  intros Hnil. rewrite Hnil in Hin. destruct Hin.
Qed.


Section Writes.

Context (rt : Runtime) (fetch : Request.t -> Thrown + Response.t).



End Writes.

(* ================================================================= *)
(** ** The further properties at concrete inputs *)

Lemma validated_identifiers_are_non_empty_witness :
  schema_issues op_getRecord (Some (JObject get_rec1)) = []
  /\ exists s, raw_member "recordId" (Some (JObject get_rec1)) = Some (JString s) /\ s <> "".
Proof.
  split; [reflexivity |].
  apply (validated_identifiers_are_non_empty op_getRecord (Some (JObject get_rec1)) eq_refl).
  reflexivity.
Defined.

Lemma reads_never_send_a_mutation_witness :
  lookup_tool (operation_name op_deleteRecords)
    (registeredTools
       (server (session sample_runtime (answer_with (success_response three_outcomes))
                  only_bob sample_env bob)))
  = Some sample_deleteRecords_tool
  /\ exists req,
       (callback sample_deleteRecords_tool delete_two []).2 = [] ++ [req]
       /\ RequestInit.method (Request.init req) = method_of op_deleteRecords
       /\ (classification op_deleteRecords = READ ->
           RequestInit.method (Request.init req) = None
           /\ RequestInit.body (Request.init req) = None).
Proof.
  split; [reflexivity |].
  apply (reads_never_send_a_mutation sample_runtime
           (answer_with (success_response three_outcomes)) only_bob sample_env bob
           op_deleteRecords sample_deleteRecords_tool delete_two []).
  reflexivity.
Defined.

Lemma requests_carry_the_key_to_airtable_witness :
  lookup_tool (operation_name op_getRecord)
    (registeredTools
       (server (session sample_runtime (answer_with (success_response JNull))
                  only_bob sample_env alice)))
  = Some sample_getRecord_tool
  /\ exists req,
       (callback sample_getRecord_tool
          {| GetRecord.baseId := "app1"; GetRecord.tableId := "tbl1";
             GetRecord.recordId := "rec1" |} []).2 = [] ++ [req]
       /\ String.prefix "https://api.airtable.com/v0/" (Request.url req) = true
       /\ RequestInit.headers (Request.init req)
          = [("Authorization", "Bearer " +:+ AIRTABLE_API_KEY sample_env);
             ("Content-Type", "application/json")].
Proof.
  split; [reflexivity |].
  apply (requests_carry_the_key_to_airtable sample_runtime
           (answer_with (success_response JNull)) only_bob sample_env alice
           op_getRecord sample_getRecord_tool).
  reflexivity.
Defined.

Lemma delete_request_determines_ids_witness :
  Forall (fun id => well_formed id = true) ["rec1"; "rec 2&3"]
  /\ (deleteRecords sample_runtime (answer_with (success_response three_outcomes))
        sample_service "app1" "tbl1" ["rec1"; "rec 2&3"] []).2
     = (deleteRecords sample_runtime (answer_with (success_response three_outcomes))
          sample_service "app1" "tbl1" ["rec1"; "rec 2&3"] []).2
  /\ ["rec1"; "rec 2&3"] = ["rec1"; "rec 2&3"].
Proof.
  assert (Hids : Forall (fun id => well_formed id = true) ["rec1"; "rec 2&3"])
    by (repeat constructor).
  split; [exact Hids |]. split; [reflexivity |].
  apply (delete_request_determines_ids sample_runtime
           (answer_with (success_response three_outcomes)) sample_service
           "app1" "tbl1" ["rec1"; "rec 2&3"] ["rec1"; "rec 2&3"] [] Hids Hids).
  reflexivity.
Defined.

(** An id that holds the separators is encoded, not split. *)
Example delete_two_url :
  map Request.url
    (deleteRecords_handler sample_runtime (answer_with (success_response three_outcomes))
       sample_service delete_two []).2
  = ["https://api.airtable.com/v0/app1/tbl1?records%5B%5D=rec1&records%5B%5D=rec+2%263"].
Proof. reflexivity. Qed.

Lemma list_request_determines_parameters_witness :
  Forall (fun kv => well_formed_entry kv = true)
    (listRecords_params sample_runtime (list_options list_five_args))
  /\ listRecords_params sample_runtime (list_options list_five_args)
     = listRecords_params sample_runtime
         {| ListOptions.view := Some ""; ListOptions.maxRecords := Some 5%Q;
            ListOptions.sort := Some []; ListOptions.filterByFormula := None |}.
Proof.
  assert (Hwf : Forall (fun kv => well_formed_entry kv = true)
                  (listRecords_params sample_runtime (list_options list_five_args)))
    by (repeat constructor).
  split; [exact Hwf |].
  apply (proj2 (list_request_determines_parameters sample_runtime
                  (answer_with (success_response JNull)) sample_service "app1" "tbl1"
                  (list_options list_five_args)
                  {| ListOptions.view := Some ""; ListOptions.maxRecords := Some 5%Q;
                     ListOptions.sort := Some []; ListOptions.filterByFormula := None |}
                  []) Hwf Hwf).
  reflexivity.
Defined.

Lemma describeTable_returns_the_requested_table_witness :
  (describeTable_handler sample_runtime (answer_with (success_response two_tables))
     sample_service describe_tbl2 []).1
  = inr (text_result (json_block sample_runtime "**Table Details**" orders_table))
  /\ exists baseSchema tables table members,
       outcome_of sample_runtime
         (answer_with (success_response two_tables)
            (request_of sample_service
               ("/meta/bases/" +:+ DescribeTable.baseId describe_tbl2 +:+ "/tables")
               no_options))
       = inr baseSchema
       /\ tables_of baseSchema = inr tables
       /\ In table tables
       /\ table = JObject members
       /\ member "id" members = Some (JString (DescribeTable.tableId describe_tbl2))
       /\ json_block sample_runtime "**Table Details**" orders_table
          = json_block sample_runtime "**Table Details**" table.
Proof.
  split; [reflexivity |].
  apply (describeTable_returns_the_requested_table sample_runtime
           (answer_with (success_response two_tables)) sample_service describe_tbl2 []).
  reflexivity.
Defined.

Lemma describeTable_reports_missing_table_witness :
  (describeTable_handler sample_runtime (answer_with (success_response two_tables))
     sample_service describe_tbl9 []).1
  = inr {| ToolResult.content :=
             [{| ContentItem.type := "text";
                 ContentItem.text :=
                   "**Error**\n\nTable " +:+ "tbl9" +:+ " not found in base " +:+ "app1";
                 ContentItem.isError := Some true |}];
           ToolResult.isError := None |}.
Proof.
  apply (describeTable_reports_missing_table sample_runtime
           (answer_with (success_response two_tables)) sample_service describe_tbl9 []
           two_tables
           [JObject [("id", JString "tbl1"); ("name", JString "Users")]; orders_table]).
  - reflexivity.
  - reflexivity.
  - repeat constructor; try discriminate; intros members [= <-]; discriminate.
Defined.

(** One [null] among the tables in front of the requested one, and the
    callback reports the property access that threw instead. *)
Example describeTable_on_a_null_table :
  exists text,
    (describeTable_handler sample_runtime
       (answer_with (success_response (JObject [("tables", JArray [JNull; orders_table])])))
       sample_service describe_tbl2 []).1
    = inr (error_result ("**Error**\n\nFailed to describe table: " +:+ text)).
Proof. eexists. reflexivity. Qed.

Lemma getRecord_requests_the_record_witness :
  exists args,
    safeParse GetRecordSchema (Some (JObject get_rec1)) = inr args
    /\ getRecord_handler sample_runtime (answer_with (success_response JNull))
         sample_service args []
       = (inr match outcome_of sample_runtime
                      (answer_with (success_response JNull)
                         (request_of sample_service
                            ("/" +:+ "app1" +:+ "/" +:+ "tbl1" +:+ "/" +:+ "rec1")
                            no_options)) with
              | inr result =>
                  text_result (json_block sample_runtime ("**Record " +:+ "rec1" +:+ "**")
                                 result)
              | inl error =>
                  error_result ("**Error**\n\nFailed to get record: " +:+ error_text error)
              end,
          [] ++ [request_of sample_service
                   ("/" +:+ "app1" +:+ "/" +:+ "tbl1" +:+ "/" +:+ "rec1") no_options]).
Proof.
  apply (getRecord_requests_the_record sample_runtime
           (answer_with (success_response JNull)) get_rec1 "app1" "tbl1" "rec1"
           sample_service []);
    first [reflexivity | discriminate].
Defined.

Lemma unregistered_names_are_not_found_witness :
  callTool
    (server (session sample_runtime (answer_with (success_response JNull))
               only_bob sample_env alice))
    "deleteRecords" None []
  = (inr ToolNotFound, []).
Proof.
  apply (unregistered_names_are_not_found sample_runtime
           (answer_with (success_response JNull)) only_bob sample_env alice).
  intros Hin. cbv in Hin. intuition discriminate.
Defined.

Lemma validated_search_sends_its_formula_witness :
  safeParse SearchRecordsSchema search_open = inr search_open_args
  /\ listRecords_params sample_runtime
       {| ListOptions.view := None;
          ListOptions.maxRecords := SearchRecords.maxRecords search_open_args;
          ListOptions.sort := None;
          ListOptions.filterByFormula :=
            Some (SearchRecords.filterByFormula search_open_args) |}
     = match SearchRecords.maxRecords search_open_args with
       | Some n => [("maxRecords", Number_toString sample_runtime n)]
       | None => []
       end
       ++ [("filterByFormula", SearchRecords.filterByFormula search_open_args)].
Proof.
  split; [reflexivity |].
  apply (validated_search_sends_its_formula sample_runtime search_open search_open_args).
  reflexivity.
Defined.

Lemma validated_limit_is_sent_witness :
  safeParse ListRecordsSchema list_five = inr list_five_args
  /\ In ("maxRecords", Number_toString sample_runtime 5%Q)
       (listRecords_params sample_runtime
          {| ListOptions.view := ListRecords.view list_five_args;
             ListOptions.maxRecords := ListRecords.maxRecords list_five_args;
             ListOptions.sort := ListRecords.sort list_five_args;
             ListOptions.filterByFormula := ListRecords.filterByFormula list_five_args |}).
Proof.
  split; [reflexivity |].
  apply (validated_limit_is_sent sample_runtime list_five list_five_args 5%Q);
    reflexivity.
Defined.

Lemma unknown_sort_direction_is_rejected_witness :
  In {| code := invalid_enum_value;
        path := [PKey "sort"; PIndex 0; PKey "direction"];
        message := None |}
     (listing_issues ListTool (Some (JObject sort_upwards)))
  /\ listing_accepts ListTool (Some (JObject sort_upwards)) = false.
Proof.
  apply (unknown_sort_direction_is_rejected sort_upwards
           [("field", JString "Name"); ("direction", JString "up")]
           [JObject [("field", JString "Name"); ("direction", JString "up")]] 0 "up");
    first [reflexivity | discriminate].
Defined.


